(** * Ownership gate and client of the todo application

    A shallow embedding of the executable parts of the repository:
    - the FastAPI patterns of the feature specification "Authentication &
      Authorization" ([get_current_user] of US-5, the user id validation of
      [create_task] of US-6), of [specs/database/schema.md] (the models and
      the database operations) and of [specs/api/rest-endpoints.md];
    - the browser modules [lib/auth.js] and [lib/api.js];
    - the form handler of [components/TodoForm.js].

    Library calls the repository does not define ([jwt.decode], [JSON.parse],
    [fetch], [URLSearchParams]) are section variables; everything the
    repository defines is a function that computes. The numbers of
    JavaScript are IEEE 754 doubles ([SpecFloat] of the Standard
    Library). *)

From Stdlib Require Import ZArith NArith List String Ascii Lia Bool DecimalPos.
From Stdlib Require SpecFloat.
From stdpp Require Import gmap list option.

Local Open Scope N_scope.

(** ** Text

    A Python [str] is a sequence of code points and a JavaScript string a
    sequence of UTF-16 code units; both are lists of numbers here. *)

Abbreviation text := (list N).

(** A literal of the source. *)
Fixpoint lit (s : string) : text :=
  match s with
  | EmptyString => []
  | String a r => N_of_ascii a :: lit r
  end.
Arguments lit : simpl never.

(** [s.startswith(p)] (Python), also the test behind a template literal
    [`p${...}`] (JavaScript). *)
Fixpoint startswith (p s : text) : bool :=
  match p, s with
  | [], _ => true
  | _ :: _, [] => false
  | a :: p', b :: s' => (a =? b) && startswith p' s'
  end.

(** [s.split(sep)] for a separator of one character: Python's
    [str.split(" ")] and JavaScript's [String.prototype.split('@')]. The
    result is never empty. *)
Fixpoint split (sep : N) (s : text) : list text :=
  match s with
  | [] => [[]]
  | c :: r =>
      if c =? sep then [] :: split sep r
      else match split sep r with
           | [] => [[c]]
           | w :: ws => (c :: w) :: ws
           end
  end.

(** [s.substr(start, len)] for non-negative arguments. *)
Definition substr (start len : nat) (s : text) : text :=
  take len (drop start s).

(** Decimal digits of a natural number, as [String(n)] and
    [`${n}`] print them. *)
Fixpoint digits_of_uint (d : Decimal.uint) : text :=
  match d with
  | Decimal.Nil => []
  | Decimal.D0 r => 48 :: digits_of_uint r
  | Decimal.D1 r => 49 :: digits_of_uint r
  | Decimal.D2 r => 50 :: digits_of_uint r
  | Decimal.D3 r => 51 :: digits_of_uint r
  | Decimal.D4 r => 52 :: digits_of_uint r
  | Decimal.D5 r => 53 :: digits_of_uint r
  | Decimal.D6 r => 54 :: digits_of_uint r
  | Decimal.D7 r => 55 :: digits_of_uint r
  | Decimal.D8 r => 56 :: digits_of_uint r
  | Decimal.D9 r => 57 :: digits_of_uint r
  end.

Definition decimal (n : N) : text := digits_of_uint (N.to_uint n).

(** The same for an integer. *)
Definition decimalZ (z : Z) : text :=
  if (z <? 0)%Z then 45 :: decimal (Z.abs_N z) else decimal (Z.to_N z).

(** ** Backend: exceptions and results

    A route either returns or raises. FastAPI answers an [HTTPException]
    with its status code and detail, and any other exception with status
    500. *)

Inductive exn :=
| HTTPException (status_code : Z) (detail : text)
| KeyError (key : text)
| IndexError.

Inductive result (A : Type) :=
| Return (a : A)
| Raise (e : exn).
Arguments Return {A} a.
Arguments Raise {A} e.

#[global] Instance result_ret : MRet result := fun A a => Return a.

#[global] Instance result_bind : MBind result := fun A B k r =>
  match r with
  | Return a => k a
  | Raise e => Raise e
  end.

Definition http_status (e : exn) : Z :=
  match e with
  | HTTPException status_code _ => status_code
  | KeyError _ | IndexError => 500%Z
  end.

(** The two outcomes of section 7 of the specification, read off the status
    code of the response. *)
Inductive outcome := Allowed | Unauthenticated | Forbidden | OtherError.

Definition outcome_of {A} (r : result A) : outcome :=
  match r with
  | Return _ => Allowed
  | Raise e =>
      if (http_status e =? 401)%Z then Unauthenticated
      else if (http_status e =? 403)%Z then Forbidden
      else OtherError
  end.

(** ** Backend: credentials

    The claims of a decoded token: a Python [dict] from claim names to
    values (the scalar values of JSON). *)

Inductive pyval :=
| PyNone
| PyBool (b : bool)
| PyInt (z : Z)
| PyStr (s : text).

#[global] Instance pyval_eq_dec : EqDecision pyval.
Proof. solve_decision. Defined.

Abbreviation payload := (gmap text pyval).

(** The subclasses of [jwt.InvalidTokenError] (PyJWT). *)
Inductive InvalidTokenError :=
| DecodeError
| InvalidSignatureError
| ExpiredSignatureError
| InvalidAudienceError
| InvalidIssuerError
| InvalidIssuedAtError
| ImmatureSignatureError
| InvalidKeyError
| InvalidAlgorithmError
| MissingRequiredClaimError.

(** [v != s] for a claim value [v] and a [str] [s]: only a [str] equals a
    [str]. *)
Definition py_ne_str (v : pyval) (s : text) : bool :=
  match v with
  | PyStr s' => negb (bool_decide (s' = s))
  | _ => true
  end.

(** [not authorization] for an [Optional[str]]. *)
Definition py_not (a : option text) : bool :=
  match a with
  | None => true
  | Some [] => true
  | Some (_ :: _) => false
  end.

Module Auth.
Section Auth.

(** [jwt.decode(token, key, algorithms)] at the time of the request: the
    claims, or the [InvalidTokenError] it raises (its subclasses cover a
    malformed token, a bad signature and an expired one). *)
Variable jwt_decode : text -> text -> list text -> payload + InvalidTokenError.

(** [os.getenv("BETTER_AUTH_SECRET")], the configured secret. *)
Variable BETTER_AUTH_SECRET : text.

(** [authorization.split(" ")[1]]; [None] is the [IndexError] of a list
    with one element. *)
Definition bearer_token (authorization : text) : option text :=
  split 32 authorization !! 1%nat.

(** [get_current_user], the dependency of [backend/app/auth.py] (US-5 of
    the feature specification "Authentication & Authorization"). *)
Definition get_current_user (authorization : option text) : result payload :=
  if py_not authorization
     || negb (startswith (lit "Bearer ") (default [] authorization))
  then Raise (HTTPException 401 (lit "Missing or invalid token"))
  else
    match bearer_token (default [] authorization) with
    | None => Raise IndexError
    | Some token =>
        match jwt_decode token BETTER_AUTH_SECRET [lit "HS256"] with
        | inl payload => Return payload
        | inr _ => Raise (HTTPException 401 (lit "Invalid token"))
        end
    end.

(** The first statement of every route handler (US-6 of the same
    specification, and "User ID Validation" in rest-endpoints.md):
    [if current_user["id"] != user_id: raise HTTPException(403)]. *)
Definition user_id_validation (current_user : payload) (user_id : text)
  : result unit :=
  match current_user !! lit "id" with
  | None => Raise (KeyError (lit "id"))
  | Some v =>
      if py_ne_str v user_id
      then Raise (HTTPException 403 (lit "Forbidden"))
      else Return tt
  end.

(** The Task Ownership Gate: the dependency [Depends(get_current_user)]
    is resolved, then the handler validates the path identity. *)
Definition ownership_gate (authorization : option text) (user_id : text)
  : result payload :=
  current_user ← get_current_user authorization;
  user_id_validation current_user user_id;;
  Return current_user.

End Auth.
End Auth.

(** A decoder for the examples. It accepts the tokens [ok.<sub>], with the
    claims [sub], [email], [iat] and [exp] that the architecture
    specification lists for an issued token, and the tokens [user.<id>],
    with the claims [id] and [email] of the test fixture [mock_user]; it
    reports [expired.<x>] as expired, [bad.<x>] as badly signed and
    anything else as malformed. *)
Definition example_decode (token key : text) (algorithms : list text)
  : payload + InvalidTokenError :=
  match split 46 token with
  | [kind; who] =>
      if bool_decide (kind = lit "ok") then
        inl (<[lit "sub" := PyStr who]>
               (<[lit "email" := PyStr (who ++ lit "@example.com")]>
                  (<[lit "iat" := PyInt 1765535400]>
                     (<[lit "exp" := PyInt 1765621800]> ∅))))
      else if bool_decide (kind = lit "user") then
        inl (<[lit "id" := PyStr who]>
               (<[lit "email" := PyStr (who ++ lit "@example.com")]> ∅))
      else if bool_decide (kind = lit "expired") then inr ExpiredSignatureError
      else if bool_decide (kind = lit "bad") then inr InvalidSignatureError
      else inr DecodeError
  | _ => inr DecodeError
  end.

Definition example_secret : text := lit "0123456789abcdef0123456789abcdef".

(** ** Backend: the tasks table and its operations (schema.md) *)

Module Models.
(** [class Task(SQLModel, table=True)]. *)
Record Task := {
  id : text;
  user_id : text;
  title : text;
  description : option text;
  completed : bool;
  created_at : Z;
  updated_at : Z
}.

(** [class TaskCreate(BaseModel)] and [class TaskUpdate(BaseModel)], which
    declare the same two fields. *)
Record TaskCreate := {
  tc_title : text;
  tc_description : option text
}.
End Models.

(** The statements a session sends to the database, with the owner each one
    is restricted to: the [user_id] of a [where] clause, or of the row that
    is written. *)
Inductive statement :=
| Select (where_id : option text) (where_user_id : option text)
| Insert (row : Models.Task)
| Update (row : Models.Task)
| Delete (row : Models.Task).

(** A [Session]: the rows of [tasks] and the statements executed so far.
    The table is a collection of rows: the list holds them in some order,
    which has no meaning. *)
Record Session := {
  rows : list Models.Task;
  executed : list statement
}.

Definition execute (st : statement) (rs : list Models.Task) (session : Session)
  : Session :=
  {| rows := rs; executed := executed session ++ [st] |}.

(** Pydantic validation of a request body against [TaskCreate]:
    [title: str = Field(..., min_length=1, max_length=255)] and
    [description: Optional[str] = Field(None, max_length=2000)]. [None] is
    the validation error FastAPI answers with 422 without calling the
    handler; a missing [title] is [None] as an argument. *)
Definition validate_TaskCreate (title description : option text)
  : option Models.TaskCreate :=
  match title with
  | None => None
  | Some t =>
      if (length t <? 1)%nat || (255 <? length t)%nat
         || from_option (fun d => (2000 <? length d)%nat) false description
      then None
      else Some {| Models.tc_title := t; Models.tc_description := description |}
  end.

Module Crud.

Definition same_id (task_id : text) (t : Models.Task) : bool :=
  bool_decide (Models.id t = task_id).

Definition owned_by (user_id : text) (t : Models.Task) : bool :=
  bool_decide (Models.user_id t = user_id).

(** [create_task(user_id, task_data, session)]; [uuid4] and the two
    readings of [utcnow] are the defaults of the model's fields. The row
    is added to the table; its place in the list has no meaning. *)
Definition create_task (uuid4 : text) (utcnow1 utcnow2 : Z)
    (user_id : text) (task_data : Models.TaskCreate) (session : Session)
  : Models.Task * Session :=
  let db_task :=
    {| Models.id := uuid4;
       Models.user_id := user_id;
       Models.title := Models.tc_title task_data;
       Models.description := Models.tc_description task_data;
       Models.completed := false;
       Models.created_at := utcnow1;
       Models.updated_at := utcnow2 |} in
  (db_task, execute (Insert db_task) (rows session ++ [db_task]) session).

(** [select(Task).where(Task.user_id == user_id)], [.all()]. The
    statement has no [ORDER BY]: which rows it returns is fixed, their
    order is the database's, and the list stands for them in some
    order. *)
Definition list_tasks (user_id : text) (session : Session)
  : list Models.Task * Session :=
  (List.filter (owned_by user_id) (rows session),
   execute (Select None (Some user_id)) (rows session) session).

(** [select(Task).where(Task.id == task_id, Task.user_id == user_id)],
    [.first()]. *)
Definition get_task (user_id task_id : text) (session : Session)
  : option Models.Task * Session :=
  (head (List.filter (fun t => same_id task_id t && owned_by user_id t)
                     (rows session)),
   execute (Select (Some task_id) (Some user_id)) (rows session) session).

Definition replace_row (t : Models.Task) (rs : list Models.Task)
  : list Models.Task :=
  List.map (fun r => if same_id (Models.id t) r then t else r) rs.

(** [update_task(task, task_data, session)]. *)
Definition update_task (utcnow : Z) (task : Models.Task)
    (task_data : Models.TaskCreate) (session : Session)
  : Models.Task * Session :=
  let task' :=
    {| Models.id := Models.id task;
       Models.user_id := Models.user_id task;
       Models.title := Models.tc_title task_data;
       Models.description := Models.tc_description task_data;
       Models.completed := Models.completed task;
       Models.created_at := Models.created_at task;
       Models.updated_at := utcnow |} in
  (task', execute (Update task') (replace_row task' (rows session)) session).

(** [delete_task(task, session)]. *)
Definition delete_task (task : Models.Task) (session : Session) : Session :=
  execute (Delete task)
    (List.filter (fun r => negb (same_id (Models.id task) r)) (rows session))
    session.

(** [toggle_completion(task, completed, session)]. *)
Definition toggle_completion (utcnow : Z) (task : Models.Task)
    (completed : bool) (session : Session)
  : Models.Task * Session :=
  let task' :=
    {| Models.id := Models.id task;
       Models.user_id := Models.user_id task;
       Models.title := Models.title task;
       Models.description := Models.description task;
       Models.completed := completed;
       Models.created_at := Models.created_at task;
       Models.updated_at := utcnow |} in
  (task', execute (Update task') (replace_row task' (rows session)) session).

End Crud.

(** ** Backend: the six routes of rest-endpoints.md *)

Inductive operation :=
| CreateTask (body : Models.TaskCreate)
| ListTasks
| GetTask (task_id : text)
| UpdateTask (task_id : text) (body : Models.TaskCreate)
| DeleteTask (task_id : text)
| ToggleTask (task_id : text) (completed : bool).

(** What a route returns on success, with its status code. *)
Inductive response :=
| Created (t : Models.Task)
| OkTasks (ts : list Models.Task)
| OkTask (t : Models.Task)
| NoContent.

(** The defaults the database layer draws while it serves one request. *)
Record Defaults := {
  uuid4 : text;
  utcnow1 : Z;
  utcnow2 : Z
}.

Module Routes.
Section Routes.

Variable jwt_decode : text -> text -> list text -> payload + InvalidTokenError.
Variable BETTER_AUTH_SECRET : text.

Definition not_found {A} : result A :=
  Raise (HTTPException 404 (lit "Task not found")).

(** Modelled from the spec: the bodies of the route handlers after the
    user id validation ([backend/app/api/tasks.py] is not in the
    repository; the pattern of [create_task] ends in
    [# Proceed with task creation...]). Each handler runs the gate and
    then the database operation of schema.md with the [user_id] of the
    path, answering 404 when [get_task] finds no row. *)
Definition proceed (d : Defaults) (user_id : text) (op : operation)
    (session : Session) : result response * Session :=
  match op with
  | CreateTask body =>
      let '(t, s) := Crud.create_task (uuid4 d) (utcnow1 d) (utcnow2 d)
                       user_id body session in
      (Return (Created t), s)
  | ListTasks =>
      let '(ts, s) := Crud.list_tasks user_id session in
      (Return (OkTasks ts), s)
  | GetTask task_id =>
      let '(o, s) := Crud.get_task user_id task_id session in
      (from_option (fun t => Return (OkTask t)) not_found o, s)
  | UpdateTask task_id body =>
      let '(o, s) := Crud.get_task user_id task_id session in
      match o with
      | None => (not_found, s)
      | Some t =>
          let '(t', s') := Crud.update_task (utcnow1 d) t body s in
          (Return (OkTask t'), s')
      end
  | DeleteTask task_id =>
      let '(o, s) := Crud.get_task user_id task_id session in
      match o with
      | None => (not_found, s)
      | Some t => (Return NoContent, Crud.delete_task t s)
      end
  | ToggleTask task_id completed =>
      let '(o, s) := Crud.get_task user_id task_id session in
      match o with
      | None => (not_found, s)
      | Some t =>
          let '(t', s') := Crud.toggle_completion (utcnow1 d) t completed s in
          (Return (OkTask t'), s')
      end
  end.

(** A request to [/api/{user_id}/tasks...]: the gate, then the
    operation. *)
Definition handle (d : Defaults) (authorization : option text)
    (user_id : text) (op : operation) (session : Session)
  : result response * Session :=
  match Auth.ownership_gate jwt_decode BETTER_AUTH_SECRET authorization user_id with
  | Raise e => (Raise e, session)
  | Return _ => proceed d user_id op session
  end.

End Routes.
End Routes.





(** The operations that only read. *)
Definition read_only (op : operation) : bool :=
  match op with
  | ListTasks | GetTask _ => true
  | _ => false
  end.

(** The authorization outcome a caller reads off the response to a request:
    401 and 403 are the rejections of the gate, an unexpected exception is
    a failure of the server, and any other response was let through. *)
Definition seen_outcome (r : result response) : outcome :=
  match r with
  | Return _ => Allowed
  | Raise (HTTPException status_code _) =>
      if (status_code =? 401)%Z then Unauthenticated
      else if (status_code =? 403)%Z then Forbidden
      else Allowed
  | Raise _ => OtherError
  end.

Definition example_task (task_id owner : string) : Models.Task :=
  {| Models.id := lit task_id; Models.user_id := lit owner;
     Models.title := lit "Buy groceries"; Models.description := None;
     Models.completed := false;
     Models.created_at := 1765535400; Models.updated_at := 1765535400 |}.

Definition example_session : Session :=
  {| rows := [example_task "t1" "u1"; example_task "t2" "u2";
              example_task "t3" "u1"];
     executed := [] |}.

Definition example_defaults : Defaults :=
  {| uuid4 := lit "123e4567-e89b-12d3-a456-426614174000";
     utcnow1 := 1765539000; utcnow2 := 1765539000 |}.

(** ** JavaScript numbers *)

(** A Number is an IEEE 754 binary64 value; its operations round to
    nearest, ties to even. *)
Abbreviation number := SpecFloat.spec_float.

Module Number.

Definition prec : Z := 53.
Definition emax : Z := 1024.

(** The Number of an integer. *)
Definition of_Z (z : Z) : number :=
  SpecFloat.binary_normalize prec emax z 0 false.

(** [x + y] and [x / y]. *)
Definition add : number -> number -> number := SpecFloat.SFadd prec emax.
Definition div : number -> number -> number := SpecFloat.SFdiv prec emax.

(** [c * 10^p] compared with [b * 2^e], for integers. *)
Definition compare_scaled (c p b e : Z) : comparison :=
  (c * 10 ^ Z.max p 0 * 2 ^ Z.max (- e) 0
   ?= b * 2 ^ Z.max e 0 * 10 ^ Z.max (- p) 0)%Z.

(** The integer part of [b * 2^e / 10^p]. *)
Definition floor_scaled (b e p : Z) : Z :=
  ((b * 2 ^ Z.max e 0 * 10 ^ Z.max (- p) 0)
   / (10 ^ Z.max p 0 * 2 ^ Z.max (- e) 0))%Z.

(** Whether the decimal [c * 10^p] is read as the Number [m * 2^e], that
    is whether it lies between the midpoints to the two neighbours of the
    Number; a midpoint itself is read as the Number whose significand is
    even. The neighbour below a power of two is half as far away. *)
Definition reads_as (m : positive) (e : Z) (c p : Z) : bool :=
  let low :=
    if ((Z.pos m =? 2 ^ 52) && (-1074 <? e))%Z then (4 * Z.pos m - 1)%Z
    else (4 * Z.pos m - 2)%Z in
  let high := (4 * Z.pos m + 2)%Z in
  match compare_scaled c p low (e - 2), compare_scaled c p high (e - 2) with
  | Gt, Lt => true
  | Eq, Lt | Gt, Eq => Z.even (Z.pos m)
  | _, _ => false
  end.

Fixpoint lower (m : positive) (e : Z) (fuel : nat) (n : Z) : Z :=
  match fuel with
  | O => n
  | S fuel =>
      match compare_scaled 1 (n - 1) (Z.pos m) e with
      | Gt => lower m e fuel (n - 1)%Z
      | _ => n
      end
  end.

Fixpoint raise (m : positive) (e : Z) (fuel : nat) (n : Z) : Z :=
  match fuel with
  | O => n
  | S fuel =>
      match compare_scaled 1 n (Z.pos m) e with
      | Gt => n
      | _ => raise m e fuel (n + 1)%Z
      end
  end.

(** The [n] with [10^(n-1) <= m * 2^e < 10^n]. *)
Definition magnitude (m : positive) (e : Z) : Z :=
  let estimate := (((Z.log2 (Z.pos m) + e) * 1233) / 4096)%Z in
  raise m e 700 (lower m e 700 estimate).

(** The decimal [c * 10^p] with the fewest digits that is read as
    [m * 2^e], and among those the closest one: tried with [k], [k + 1],
    ... digits. *)
Fixpoint shortest (m : positive) (e : Z) (n : Z) (fuel : nat) (k : Z) : Z * Z :=
  let p := (n - k)%Z in
  let c0 := floor_scaled (Z.pos m) e p in
  let c1 := (c0 + 1)%Z in
  match reads_as m e c0 p, reads_as m e c1 p, fuel with
  | true, true, _ =>
      match compare_scaled (2 * c0 + 1) p (2 * Z.pos m) e with
      | Gt => (c0, p)
      | Lt => (c1, p)
      | Eq => (if Z.even c0 then c0 else c1, p)
      end
  | true, false, _ => (c0, p)
  | false, true, _ => (c1, p)
  | false, false, S fuel => shortest m e n fuel (k + 1)%Z
  | false, false, O => (c0, p)
  end.

(** Without the zeros at the end. *)
Fixpoint strip (fuel : nat) (c p : Z) : Z * Z :=
  match fuel with
  | O => (c, p)
  | S fuel =>
      if ((c mod 10 =? 0) && negb (c =? 0))%Z then strip fuel (c / 10)%Z (p + 1)%Z
      else (c, p)
  end.

(** Steps 7 to 11 of Number::toString: the digits of [s] and the [n] with
    [s * 10^(n - k)] the value, [k] the number of digits. *)
Definition format (digits : text) (n : Z) : text :=
  let k := Z.of_nat (length digits) in
  if ((k <=? n) && (n <=? 21))%Z then
    digits ++ replicate (Z.to_nat (n - k)) 48
  else if ((0 <? n) && (n <=? 21))%Z then
    take (Z.to_nat n) digits ++ 46 :: drop (Z.to_nat n) digits
  else if ((-6 <? n) && (n <=? 0))%Z then
    lit "0." ++ replicate (Z.to_nat (- n)) 48 ++ digits
  else
    match digits with
    | [] => []
    | [d] => [d]
    | d :: r => d :: 46 :: r
    end
    ++ 101 :: (if (n - 1 <? 0)%Z then 45 else 43) :: decimal (Z.abs_N (n - 1)).

(** Number::toString for a positive finite Number. *)
Definition toString_finite (m : positive) (e : Z) : text :=
  let '(c, p) := shortest m e (magnitude m e) 17 1 in
  let '(s, p') := strip 400 c p in
  let digits := decimal (Z.to_N s) in
  format digits (Z.of_nat (length digits) + p').

End Number.

(** [String(x)] for a Number [x], Number::toString with radix 10: the
    shortest decimal that is read back as [x]; exponent notation from
    [1e21] on and below [1e-6]. *)
Definition number_toString (x : number) : text :=
  match x with
  | SpecFloat.S754_nan => lit "NaN"
  | SpecFloat.S754_zero _ => lit "0"
  | SpecFloat.S754_infinity s =>
      (if s then [45] else []) ++ lit "Infinity"
  | SpecFloat.S754_finite s m e =>
      (if s then [45] else [])
      ++ match SpecFloat.binary_round Number.prec Number.emax false m e with
         | SpecFloat.S754_finite _ m' e' => Number.toString_finite m' e'
         | SpecFloat.S754_zero _ => lit "0"
         | _ => lit "Infinity"
         end
  end.

(** [Number.isFinite(x)]. *)
Definition isFinite (x : number) : bool :=
  match x with
  | SpecFloat.S754_zero _ | SpecFloat.S754_finite _ _ _ => true
  | _ => false
  end.

(** ** Browser: JSON values, [JSON.stringify] and [btoa] *)

(** The values [JSON.stringify] writes and [JSON.parse] reads. [JNull] is
    also JavaScript's [null] where a function returns one. A number is a
    Number of JavaScript, a double. An object lists its properties in
    order. *)
#[warnings="-register-all"]
Inductive json :=
| JNull
| JBool (b : bool)
| JNum (x : number)
| JStr (s : text)
| JArr (items : list json)
| JObj (properties : list (text * json)).

(** [!!v]. *)
Definition truthy (v : json) : bool :=
  match v with
  | JNull => false
  | JBool b => b
  | JNum x =>
      match x with
      | SpecFloat.S754_zero _ | SpecFloat.S754_nan => false
      | _ => true
      end
  | JStr s => negb (bool_decide (s = []))
  | JArr _ | JObj _ => true
  end.

(** [!!s] for a string or [null]. *)
Definition truthy_text (s : option text) : bool :=
  match s with
  | None | Some [] => false
  | Some (_ :: _) => true
  end.

(** [v.k] for a value that is not [null]: the property of an object,
    [undefined] ([None]) otherwise. *)
Fixpoint assoc (k : text) (ps : list (text * json)) : option json :=
  match ps with
  | [] => None
  | (k', v) :: r => if bool_decide (k' = k) then Some v else assoc k r
  end.

Definition property (k : text) (v : json) : option json :=
  match v with
  | JObj ps => assoc k ps
  | _ => None
  end.

Definition hex_digit (d : N) : N :=
  if d <? 10 then 48 + d else 87 + d.

(** [\uXXXX] with lower-case digits. *)
Definition unicode_escape (c : N) : text :=
  [92; 117; hex_digit (N.land (N.shiftr c 12) 15);
   hex_digit (N.land (N.shiftr c 8) 15);
   hex_digit (N.land (N.shiftr c 4) 15);
   hex_digit (N.land c 15)].

Definition is_high_surrogate (c : N) : bool := (0xD800 <=? c) && (c <=? 0xDBFF).
Definition is_low_surrogate (c : N) : bool := (0xDC00 <=? c) && (c <=? 0xDFFF).

(** One code unit that is not part of a surrogate pair, as
    [QuoteJSONString] writes it. *)
Definition quote_unit (c : N) : text :=
  if c =? 8 then lit "\b"
  else if c =? 9 then lit "\t"
  else if c =? 10 then lit "\n"
  else if c =? 12 then lit "\f"
  else if c =? 13 then lit "\r"
  else if c =? 34 then [92; 34]
  else if c =? 92 then [92; 92]
  else if (c <? 32) || is_high_surrogate c || is_low_surrogate c
       then unicode_escape c
  else [c].

Fixpoint quote_body (s : text) : text :=
  match s with
  | [] => []
  | c :: r =>
      match r with
      | d :: r' =>
          if is_high_surrogate c && is_low_surrogate d
          then c :: d :: quote_body r'
          else quote_unit c ++ quote_body r
      | [] => quote_unit c
      end
  end.

Definition quote (s : text) : text := 34 :: quote_body s ++ [34].

(** [JSON.stringify(v)]; a Number that is not finite is written as
    [null]. *)
Fixpoint JSON_stringify (v : json) : text :=
  match v with
  | JNull => lit "null"
  | JBool true => lit "true"
  | JBool false => lit "false"
  | JNum x => if isFinite x then number_toString x else lit "null"
  | JStr s => quote s
  | JArr items =>
      91 :: (fix elements (l : list json) : text :=
               match l with
               | [] => []
               | [x] => JSON_stringify x
               | x :: r => JSON_stringify x ++ 44 :: elements r
               end) items ++ [93]
  | JObj properties =>
      123 :: (fix members (l : list (text * json)) : text :=
                match l with
                | [] => []
                | [(k, x)] => quote k ++ 58 :: JSON_stringify x
                | (k, x) :: r => quote k ++ 58 :: JSON_stringify x ++ 44 :: members r
                end) properties ++ [125]
  end.

Definition b64_alphabet : text :=
  lit "ABCDEFGHIJKLMNOPQRSTUVWXYZabcdefghijklmnopqrstuvwxyz0123456789+/".

Definition b64_char (i : N) : N := nth (N.to_nat (N.land i 63)) b64_alphabet 0.

Fixpoint b64_encode (bytes : list N) : text :=
  match bytes with
  | [] => []
  | [a] =>
      [b64_char (N.shiftr a 2); b64_char (N.shiftl a 4); 61; 61]
  | [a; b] =>
      [b64_char (N.shiftr a 2);
       b64_char (N.lor (N.shiftl a 4) (N.shiftr b 4));
       b64_char (N.shiftl b 2); 61]
  | a :: b :: c :: r =>
      b64_char (N.shiftr a 2)
      :: b64_char (N.lor (N.shiftl a 4) (N.shiftr b 4))
      :: b64_char (N.lor (N.shiftl b 2) (N.shiftr c 6))
      :: b64_char c
      :: b64_encode r
  end.

Definition latin1 (s : text) : bool := forallb (fun c => c <=? 255) s.

Definition Latin1 (s : text) : Prop := Forall (fun c => c <= 255) s.

(** [btoa(s)]: [None] is the [InvalidCharacterError] it throws when a code
    unit of [s] is above 255. *)
Definition btoa (s : text) : option text :=
  if latin1 s then Some (b64_encode s) else None.

(** ** Browser: the page's environment *)

(** What JavaScript throws in these modules. [Error v] is
    [new Error(v)]: its message is the string conversion of [v]. *)
Inductive js_error :=
| Error (message : json)
| SyntaxError
| TypeError
| InvalidCharacterError.

(** The result of an [async] function: the promise resolves or rejects. *)
Inductive promise (A : Type) :=
| Resolved (a : A)
| Rejected (e : js_error).
Arguments Resolved {A} a.
Arguments Rejected {A} e.

(** The environment of a module: whether [window] is defined (it is not
    while Next.js renders on the server), [localStorage], the last value
    assigned to [window.location.href] and what [console.error] printed. *)
Record Browser := {
  window : bool;
  localStorage : gmap text text;
  location_href : option text;
  console_error : list js_error
}.

Definition with_localStorage (ls : gmap text text) (w : Browser) : Browser :=
  {| window := window w; localStorage := ls;
     location_href := location_href w; console_error := console_error w |}.

Definition with_location_href (href : text) (w : Browser) : Browser :=
  {| window := window w; localStorage := localStorage w;
     location_href := Some href; console_error := console_error w |}.

Definition log_error (e : js_error) (w : Browser) : Browser :=
  {| window := window w; localStorage := localStorage w;
     location_href := location_href w;
     console_error := console_error w ++ [e] |}.

(** [Math.random().toString(36)]: the random number is given by the
    base-36 digits of its fraction. *)
Definition digit36 (d : N) : N := hex_digit (d mod 36).

Definition toString36 (fraction_digits : list N) : text :=
  match fraction_digits with
  | [] => lit "0"
  | _ => lit "0." ++ List.map digit36 fraction_digits
  end.

(** ** Browser: [lib/auth.js] *)

Module AuthJs.

Definition AUTH_TOKEN_KEY : text := lit "auth_token".
Definition AUTH_USER_KEY : text := lit "auth_user".

(** [getToken()]; [None] is [null]. *)
Definition getToken (w : Browser) : option text :=
  if negb (window w) then None
  else localStorage w !! AUTH_TOKEN_KEY.

(** [setAuth(user, token)]. *)
Definition setAuth (user : json) (token : text) (w : Browser) : Browser :=
  if negb (window w) then w
  else
    with_localStorage
      (<[AUTH_TOKEN_KEY := token]>
         (<[AUTH_USER_KEY := JSON_stringify user]> (localStorage w))) w.

(** [clearAuth()]. *)
Definition clearAuth (w : Browser) : Browser :=
  if negb (window w) then w
  else
    with_localStorage
      (delete AUTH_TOKEN_KEY (delete AUTH_USER_KEY (localStorage w))) w.

(** [logout()]. *)
Definition logout (w : Browser) : Browser :=
  let w' := clearAuth w in
  if window w' then with_location_href (lit "/") w' else w'.

(** ['demo-user-' + Math.random().toString(36).substr(2, 9)]. *)
Definition mockUser_id (random : list N) : text :=
  lit "demo-user-" ++ substr 2 9 (toString36 random).

(** The object literal [mockUser] of [login]. *)
Definition mockUser (random : list N) (email : text) : json :=
  JObj [(lit "id", JStr (mockUser_id random));
        (lit "email", JStr email);
        (lit "name", JStr (default [] (head (split 64 email))))].

(** The object [login] serialises into the token. [now_iat] and [now_exp]
    are the two readings of [Date.now()], in evaluation order, in
    milliseconds; [Date.now() / 1000] and [Date.now() / 1000 + 86400] are
    evaluated in doubles. *)
Definition mockClaims (random : list N) (email : text) (now_iat now_exp : Z)
  : json :=
  JObj [(lit "sub", JStr (mockUser_id random));
        (lit "email", JStr email);
        (lit "iat", JNum (Number.div (Number.of_Z now_iat) (Number.of_Z 1000)));
        (lit "exp",
         JNum (Number.add (Number.div (Number.of_Z now_exp) (Number.of_Z 1000))
                 (Number.of_Z 86400)))].

(** [login(email, password)]. *)
Definition login (random : list N) (now_iat now_exp : Z)
    (email password : text) (w : Browser) : promise json * Browser :=
  let user := mockUser random email in
  match btoa (JSON_stringify (mockClaims random email now_iat now_exp)) with
  | None => (Rejected InvalidCharacterError, w)
  | Some mockToken => (Resolved user, setAuth user mockToken w)
  end.

(** [signup(email, password, name)]. *)
Definition signup (random : list N) (now_iat now_exp : Z)
    (email password name : text) (w : Browser) : promise json * Browser :=
  login random now_iat now_exp email password w.

Section Parse.

(** [JSON.parse(s)]; [None] is the [SyntaxError] it throws. *)
Variable JSON_parse : text -> option json.

(** [getUser()]; [JNull] is [null]. *)
Definition getUser (w : Browser) : json :=
  if negb (window w) then JNull
  else
    match localStorage w !! AUTH_USER_KEY with
    | None | Some [] => JNull
    | Some userStr => default JNull (JSON_parse userStr)
    end.

(** [isAuthenticated()]. *)
Definition isAuthenticated (w : Browser) : bool :=
  truthy_text (getToken w) && truthy (getUser w).

End Parse.

End AuthJs.

(** A reader for the examples: [JSON.parse] on the texts the examples
    store. *)
Definition example_user : json :=
  JObj [(lit "id", JStr (lit "demo-user-4fzyo82mv"));
        (lit "email", JStr (lit "ada@example.com"));
        (lit "name", JStr (lit "ada"))].

Definition example_parse (s : text) : option json :=
  if bool_decide (s = JSON_stringify example_user) then Some example_user
  else if bool_decide (s = lit "null") then Some JNull
  else if bool_decide (s = lit "0") then Some (JNum (Number.of_Z 0))
  else if bool_decide (s = lit "{}") then Some (JObj [])
  else None.

Definition example_browser : Browser :=
  {| window := true; localStorage := ∅; location_href := None;
     console_error := [] |}.

Definition example_server : Browser :=
  {| window := false; localStorage := ∅; location_href := None;
     console_error := [] |}.

(** The base-36 digits of a random fraction: [0.4fzyo82mvyr]. *)
Definition example_random : list N := [4; 15; 35; 34; 24; 8; 2; 22; 31; 34; 27].

(** ** Browser: [lib/api.js] *)

(** The [options] of a request and the request [fetch] receives. *)
Record Options := {
  method : option text;
  body : option text;
  headers : gmap text text
}.

Record Request := {
  url : text;
  init : Options
}.

(** A [Response]: its status and what [response.json()] resolves to
    ([None] when the body is not JSON and it rejects with a
    [SyntaxError]). *)
Record Response := {
  status : Z;
  json_body : option json
}.

(** [response.ok]. *)
Definition ok (response : Response) : bool :=
  (200 <=? status response)%Z && (status response <=? 299)%Z.

(** [a || b] for a property that may be [undefined]. *)
Definition or_else (a : option json) (b : json) : json :=
  match a with
  | Some v => if truthy v then v else b
  | None => b
  end.

(** [errorData.detail]: reading a property of [null] throws. *)
Definition detail_of (errorData : json) : promise (option json) :=
  match errorData with
  | JNull => Rejected TypeError
  | _ => Resolved (property (lit "detail") errorData)
  end.

(** The filters of the task list: each is a string or [undefined]. *)
Record Filters := {
  f_completed : option text;
  f_search : option text;
  f_sort : option text;
  f_order : option text
}.

Module Api.
Section Api.

(** [process.env.NEXT_PUBLIC_API_URL]. *)
Variable NEXT_PUBLIC_API_URL : option text.

(** [fetch(url, init)]: the response, or the error it rejects with. *)
Variable fetch : Request -> promise Response.

(** [new URLSearchParams()], [append] in order, [toString()]. *)
Variable URLSearchParams_toString : list (text * text) -> text.

Definition API_URL : text :=
  if truthy_text NEXT_PUBLIC_API_URL then default [] NEXT_PUBLIC_API_URL
  else lit "http://localhost:8080".

(** The [headers] object of [apiRequest]. *)
Definition build_headers (options : Options) (w : Browser) : gmap text text :=
  let headers :=
    headers options ∪ {[ lit "Content-Type" := lit "application/json" ]} in
  match AuthJs.getToken w with
  | Some (c :: t) =>
      <[ lit "Authorization" := lit "Bearer " ++ c :: t ]> headers
  | _ => headers
  end.

Definition build_request (endpoint : text) (options : Options) (w : Browser)
  : Request :=
  {| url := API_URL ++ endpoint;
     init := {| method := method options; body := body options;
                headers := build_headers options w |} |}.

(** The body of the [try] block, after [fetch] has resolved. *)
Definition on_response (response : Response) (w : Browser)
  : promise json * Browser :=
  if (status response =? 401)%Z then
    (Rejected (Error (JStr (lit "Unauthorized"))),
     if window w then
       with_location_href (lit "/login")
         (with_localStorage
            (delete (lit "auth_user") (delete (lit "auth_token") (localStorage w))) w)
     else w)
  else if (status response =? 403)%Z then
    (Rejected (Error (JStr (lit "Access denied"))), w)
  else if (status response =? 404)%Z then
    (Rejected (Error (JStr (lit "Resource not found"))), w)
  else if (status response =? 422)%Z then
    match json_body response with
    | None => (Rejected SyntaxError, w)
    | Some errorData =>
        match detail_of errorData with
        | Rejected e => (Rejected e, w)
        | Resolved d =>
            (Rejected (Error (or_else d (JStr (lit "Validation error")))), w)
        end
    end
  else if (status response =? 204)%Z then (Resolved JNull, w)
  else if negb (ok response) then
    match detail_of (default (JObj []) (json_body response)) with
    | Rejected e => (Rejected e, w)
    | Resolved d =>
        (Rejected
           (Error (or_else d
                     (JStr (lit "Request failed with status "
                            ++ decimalZ (status response))))), w)
    end
  else
    match json_body response with
    | None => (Rejected SyntaxError, w)
    | Some data => (Resolved data, w)
    end.

(** [apiRequest(endpoint, options)]: whatever the [try] block throws is
    printed by [console.error] and thrown again. *)
Definition apiRequest (endpoint : text) (options : Options) (w : Browser)
  : promise json * Browser :=
  let attempt :=
    match fetch (build_request endpoint options w) with
    | Rejected e => (Rejected e, w)
    | Resolved response => on_response response w
    end in
  match attempt with
  | (Rejected error, w') => (Rejected error, log_error error w')
  | (Resolved data, w') => (Resolved data, w')
  end.

Definition no_options : Options :=
  {| method := None; body := None; headers := ∅ |}.

Definition with_method (m : string) (b : option text) : Options :=
  {| method := Some (lit m); body := b; headers := ∅ |}.

(** The parameters [tasksAPI.list] appends. *)
Definition list_params (filters : Filters) : list (text * text) :=
  (match f_completed filters with
   | Some c => if bool_decide (c = lit "all") then [] else [(lit "completed", c)]
   | None => []
   end)
  ++ (if truthy_text (f_search filters)
      then [(lit "search", default [] (f_search filters))] else [])
  ++ (if truthy_text (f_sort filters)
      then [(lit "sort", default [] (f_sort filters))] else [])
  ++ (if truthy_text (f_order filters)
      then [(lit "order", default [] (f_order filters))] else []).

(** A call of a method of [tasksAPI]. *)
Inductive call :=
| list (userId : text) (filters : Filters)
| get (userId taskId : text)
| create (userId : text) (taskData : json)
| update (userId taskId : text) (taskData : json)
| delete (userId taskId : text)
| toggleComplete (userId taskId : text) (completed : bool).

(** The template literal each method passes to [apiRequest]. *)
Definition endpoint (c : call) : text :=
  match c with
  | list userId filters =>
      let params := URLSearchParams_toString (list_params filters) in
      let query :=
        match params with [] => [] | _ => lit "?" ++ params end in
      lit "/api/" ++ userId ++ lit "/tasks" ++ query
  | get userId taskId
  | update userId taskId _
  | delete userId taskId =>
      lit "/api/" ++ userId ++ lit "/tasks/" ++ taskId
  | create userId _ =>
      lit "/api/" ++ userId ++ lit "/tasks"
  | toggleComplete userId taskId _ =>
      lit "/api/" ++ userId ++ lit "/tasks/" ++ taskId ++ lit "/complete"
  end.

(** The second argument each method passes to [apiRequest]. *)
Definition options_of (c : call) : Options :=
  match c with
  | list _ _ | get _ _ => no_options
  | create _ taskData => with_method "POST" (Some (JSON_stringify taskData))
  | update _ _ taskData => with_method "PUT" (Some (JSON_stringify taskData))
  | delete _ _ => with_method "DELETE" None
  | toggleComplete _ _ completed =>
      with_method "PATCH"
        (Some (JSON_stringify (JObj [(lit "completed", JBool completed)])))
  end.

(** [tasksAPI.<method>(...)]. *)
Definition tasksAPI (c : call) (w : Browser) : promise json * Browser :=
  apiRequest (endpoint c) (options_of c) w.


End Api.
End Api.

(** ** Browser: [components/TodoForm.js] *)

(** ECMAScript's white space and line terminators. *)
Definition is_white_space (c : N) : bool :=
  bool_decide (c ∈ [9; 10; 11; 12; 13; 32; 160; 0x1680; 0x2028; 0x2029;
                    0x202F; 0x205F; 0x3000; 0xFEFF])
  || (0x2000 <=? c) && (c <=? 0x200A).

Fixpoint trim_start (s : text) : text :=
  match s with
  | c :: r => if is_white_space c then trim_start r else s
  | [] => []
  end.

(** [s.trim()]. *)
Definition trim (s : text) : text :=
  reverse (trim_start (reverse (trim_start s))).

Module TodoForm.

(** The state of the component. *)
Record State := {
  title : text;
  description : text;
  error : text
}.

(** The object [handleSubmit] passes to [onSubmit]. *)
Record Submission := {
  s_title : text;
  s_description : text
}.

Definition setError (e : text) (st : State) : State :=
  {| title := title st; description := description st; error := e |}.

Section Form.

(** The [onSubmit] property: [None] when its promise resolves,
    [Some m] when it rejects with an error whose [message] is [m]
    ([None] for [undefined]). *)
Variable onSubmit : Submission -> option (option text).

(** [handleSubmit(e)]: the next state and the calls made to
    [onSubmit]. *)
Definition handleSubmit (st : State) : State * list Submission :=
  let st := setError (lit "") st in
  match trim (title st) with
  | [] => (setError (lit "Title is required") st, [])
  | _ :: _ =>
      let data := {| s_title := title st; s_description := description st |} in
      match onSubmit data with
      | None => (st, [data])
      | Some message =>
          (setError (if truthy_text message then default [] message
                     else lit "Failed to save task") st, [data])
      end
  end.

End Form.

End TodoForm.

(** For the examples: a server that answers every request with the same
    response, and the serialisation of parameters whose names and values
    need no escaping. *)
Definition example_fetch (response : Response) (request : Request)
  : promise Response :=
  Resolved response.

Fixpoint example_params (ps : list (text * text)) : text :=
  match ps with
  | [] => []
  | [(k, v)] => k ++ 61 :: v
  | (k, v) :: r => k ++ 61 :: v ++ 38 :: example_params r
  end.


(** ** Further examples *)

(** A network that is down: [fetch] rejects. *)
Definition example_offline (request : Request) : promise Response :=
  Rejected TypeError.

Definition example_signed_in : Browser :=
  AuthJs.setAuth example_user (lit "dG9rZW4=") example_browser.


(** ** Browser: conversion to string *)

(** [String(v)], the conversion a template literal and [new Error(v)]
    apply, for a value that can be converted ([printable] below): a
    string is itself, a Number prints as [number_toString] has it, an
    array joins the conversions of its elements with commas and prints
    [null] as nothing, an object prints as [[object Object]]. *)
Fixpoint ToString (v : json) : text :=
  match v with
  | JNull => lit "null"
  | JBool true => lit "true"
  | JBool false => lit "false"
  | JNum x => number_toString x
  | JStr s => s
  | JArr items =>
      (fix join (l : list json) : text :=
         match l with
         | [] => []
         | [x] => match x with JNull => [] | _ => ToString x end
         | x :: r =>
             match x with JNull => [] | _ => ToString x end ++ 44 :: join r
         end) items
  | JObj _ => lit "[object Object]"
  end.

(** Whether [String(v)] returns: an object read from JSON that has a
    property [toString] of its own hides [Object.prototype.toString], and
    its conversion throws a [TypeError]; so does the conversion of an
    array with such an element. *)
Fixpoint printable (v : json) : bool :=
  match v with
  | JArr items =>
      (fix all (l : list json) : bool :=
         match l with
         | [] => true
         | x :: r => printable x && all r
         end) items
  | JObj properties =>
      negb (bool_decide (lit "toString" ∈ List.map fst properties))
  | _ => true
  end.

(** A value inside a template literal; [None] is [undefined]. *)
Definition template (v : option json) : text :=
  match v with
  | Some v => ToString v
  | None => lit "undefined"
  end.

(** [v.k]: reading a property of [null] throws. *)
Definition member (k : text) (v : json) : promise (option json) :=
  match v with
  | JNull => Rejected TypeError
  | _ => Resolved (property k v)
  end.

(** ** Browser: the pages and their components *)

(** What a handler does to its page besides its requests, in order: the
    state setters it calls, [router.push] and [alert]. *)
Inductive effect :=
| setUser (user : json)
| setLoading (loading : bool)
| setTask (task : json)
| setTasks (tasks : json)
| router_push (href : text)
| alert (message : text).

(** The object [{ title, description }] of the form, as a value. *)
Definition task_data (data : TodoForm.Submission) : json :=
  JObj [(lit "title", JStr (TodoForm.s_title data));
        (lit "description", JStr (TodoForm.s_description data))].

Module Page.
Section Page.

Variable JSON_parse : text -> option json.
Variable NEXT_PUBLIC_API_URL : option text.
Variable fetch : Request -> promise Response.
Variable URLSearchParams_toString : list (text * text) -> text.

(** [error.message]; the messages of the errors the platform throws are
    the platform's. [new Error(v)] converts [v] to a string; where that
    conversion throws, what is thrown is its [TypeError]. *)
Variable native_message : js_error -> text.

Definition message (error : js_error) : text :=
  match error with
  | Error v => if printable v then ToString v else native_message TypeError
  | _ => native_message error
  end.

(** The first effect of [NewTaskPage], [EditTaskPage] and [TodosPage]. *)
Definition require_auth (w : Browser) : list effect :=
  if negb (AuthJs.isAuthenticated JSON_parse w) then [router_push (lit "/login")]
  else [setUser (AuthJs.getUser JSON_parse w)].

(** [tasksAPI.<method>(user.id, ...)]: the argument [user.id] is evaluated
    before the call. *)
Definition tasksAPI_for (user : json) (c : text -> Api.call) (w : Browser)
  : promise json * Browser :=
  match member (lit "id") user with
  | Rejected e => (Rejected e, w)
  | Resolved id =>
      Api.tasksAPI NEXT_PUBLIC_API_URL fetch URLSearchParams_toString
        (c (template id)) w
  end.

(** A [TodoForm] whose [onSubmit] is a handler of the page: the state of
    the form, the effects on the page and the environment after
    [handleSubmit]. *)
Definition submit
    (handler : TodoForm.Submission -> Browser -> promise unit * list effect * Browser)
    (st : TodoForm.State) (w : Browser)
  : TodoForm.State * list effect * Browser :=
  let onSubmit data :=
    match fst (fst (handler data w)) with
    | Resolved _ => None
    | Rejected err => Some (Some (message err))
    end in
  match TodoForm.handleSubmit onSubmit st with
  | (st', []) => (st', [], w)
  | (st', data :: _) => (st', snd (fst (handler data w)), snd (handler data w))
  end.

End Page.
End Page.

Module HomePage.
Section HomePage.

Variable JSON_parse : text -> option json.

(** The effect of the landing page. *)
Definition useEffect (w : Browser) : list effect :=
  if AuthJs.isAuthenticated JSON_parse w then [router_push (lit "/todos")]
  else [].

End HomePage.
End HomePage.

Module NewTaskPage.
Section NewTaskPage.

Variable NEXT_PUBLIC_API_URL : option text.
Variable fetch : Request -> promise Response.
Variable URLSearchParams_toString : list (text * text) -> text.

(** [handleSubmit(data)]. *)
Definition handleSubmit (user : json) (data : TodoForm.Submission) (w : Browser)
  : promise unit * list effect * Browser :=
  match Page.tasksAPI_for NEXT_PUBLIC_API_URL fetch URLSearchParams_toString user
          (fun userId => Api.create userId (task_data data)) w with
  | (Resolved _, w') =>
      (Resolved tt,
       [setLoading true; router_push (lit "/todos"); setLoading false], w')
  | (Rejected error, w') =>
      (Rejected error, [setLoading true; setLoading false], log_error error w')
  end.

End NewTaskPage.
End NewTaskPage.

Module EditTaskPage.
Section EditTaskPage.

Variable NEXT_PUBLIC_API_URL : option text.
Variable fetch : Request -> promise Response.
Variable URLSearchParams_toString : list (text * text) -> text.


End EditTaskPage.
End EditTaskPage.

Module TodosPage.

(** The initial value of the [filters] state. *)
Definition initial_filters : Filters :=
  {| f_completed := Some (lit "all"); f_search := Some (lit "");
     f_sort := Some (lit "created_at"); f_order := Some (lit "desc") |}.

Section TodosPage.

Variable NEXT_PUBLIC_API_URL : option text.
Variable fetch : Request -> promise Response.
Variable URLSearchParams_toString : list (text * text) -> text.



End TodosPage.
End TodosPage.

Module TodoFilters.

Definition handleSearchChange (value : text) (filters : Filters) : Filters :=
  {| f_completed := f_completed filters; f_search := Some value;
     f_sort := f_sort filters; f_order := f_order filters |}.

Definition handleCompletedFilter (value : text) (filters : Filters) : Filters :=
  {| f_completed := Some value; f_search := f_search filters;
     f_sort := f_sort filters; f_order := f_order filters |}.

Definition handleSortChange (value : text) (filters : Filters) : Filters :=
  {| f_completed := f_completed filters; f_search := f_search filters;
     f_sort := Some value; f_order := f_order filters |}.

Definition clearFilters : Filters :=
  {| f_completed := Some (lit "all"); f_search := Some (lit "");
     f_sort := Some (lit "created_at"); f_order := Some (lit "desc") |}.

(** The values of the three buttons and of the options of the select. *)
Definition completed_buttons : list text :=
  [lit "all"; lit "false"; lit "true"].

Definition sort_options : list text :=
  [lit "created_at"; lit "updated_at"; lit "title"].

End TodoFilters.

(** The filters the controls of [TodoFilters] can produce on [TodosPage],
    starting from the initial state: [onFilterChange] is [setFilters]. *)
Inductive reachable : Filters -> Prop :=
| reachable_initial : reachable TodosPage.initial_filters
| reachable_search value filters :
    reachable filters ->
    reachable (TodoFilters.handleSearchChange value filters)
| reachable_completed value filters :
    value ∈ TodoFilters.completed_buttons ->
    reachable filters ->
    reachable (TodoFilters.handleCompletedFilter value filters)
| reachable_sort value filters :
    value ∈ TodoFilters.sort_options ->
    reachable filters ->
    reachable (TodoFilters.handleSortChange value filters)
| reachable_clear filters :
    reachable filters ->
    reachable TodoFilters.clearFilters.



Definition example_forbidden : Response :=
  {| status := 403;
     json_body := Some (JObj [(lit "detail", JStr (lit "Forbidden"))]) |}.


(** * Properties *)

(** ** Text *)

Lemma startswith_app (p s : text) :
  startswith p s = true <-> exists r, s = p ++ r.
Proof.
  revert s; induction p as [|a p IH]; intros s; simpl.
  - split; [intros _; by exists s | done].
  - destruct s as [|b s].
    + split; [done | intros [r Hr]; discriminate].
    + rewrite andb_true_iff, N.eqb_eq, IH. split.
      * intros [-> [r ->]]. by exists r.
      * intros [r Hr]. injection Hr as -> ->. eauto.
Qed.

Lemma split_nonempty sep s : split sep s <> [].
Proof.
  destruct s as [|c r]; simpl; [done|].
  destruct (c =? sep); [done|]. by destruct (split sep r).
Qed.

(** A header that starts with ["Bearer "] always has a second field, so
    the index [1] of [get_current_user] is in range. *)
Lemma bearer_token_in_range (authorization : text) :
  startswith (lit "Bearer ") authorization = true ->
  is_Some (Auth.bearer_token authorization).
Proof.
  intros [r ->]%startswith_app. unfold Auth.bearer_token. simpl.
  destruct (split 32 r) as [|w ws] eqn:E; [by apply split_nonempty in E|].
  by eexists.
Qed.

(** ** The ownership gate *)

Section GateFacts.

Variable jwt_decode : text -> text -> list text -> payload + InvalidTokenError.
Variable BETTER_AUTH_SECRET : text.

Let get_current_user := Auth.get_current_user jwt_decode BETTER_AUTH_SECRET.
Let ownership_gate := Auth.ownership_gate jwt_decode BETTER_AUTH_SECRET.
Let decode token := jwt_decode token BETTER_AUTH_SECRET [lit "HS256"].

(** A credential is presented when the header is a bearer header; it is
    valid when the library decodes it. *)
Lemma get_current_user_valid authorization token claims :
  startswith (lit "Bearer ") authorization = true ->
  Auth.bearer_token authorization = Some token ->
  decode token = inl claims ->
  get_current_user (Some authorization) = Return claims.
Proof.
  unfold get_current_user, Auth.get_current_user, decode.
  intros Hp Ht Hd.
  change (default [] (Some authorization)) with authorization.
  rewrite Hp, Ht, Hd. by destruct authorization.
Qed.

Lemma get_current_user_invalid authorization token e :
  startswith (lit "Bearer ") authorization = true ->
  Auth.bearer_token authorization = Some token ->
  decode token = inr e ->
  get_current_user (Some authorization)
  = Raise (HTTPException 401 (lit "Invalid token")).
Proof.
  unfold get_current_user, Auth.get_current_user, decode.
  intros Hp Ht Hd.
  change (default [] (Some authorization)) with authorization.
  rewrite Hp, Ht, Hd. by destruct authorization.
Qed.

Lemma get_current_user_missing authorization :
  authorization = None
  \/ (exists a, authorization = Some a /\ startswith (lit "Bearer ") a = false) ->
  get_current_user authorization
  = Raise (HTTPException 401 (lit "Missing or invalid token")).
Proof.
  unfold get_current_user, Auth.get_current_user.
  intros [-> | (a & -> & Hp)]; [done|].
  change (default [] (Some a)) with a. rewrite Hp.
  by rewrite orb_true_r.
Qed.

(** Every way [get_current_user] can end. *)
Lemma get_current_user_cases authorization :
  (get_current_user authorization
     = Raise (HTTPException 401 (lit "Missing or invalid token"))
   /\ (authorization = None
       \/ exists a, authorization = Some a
                    /\ startswith (lit "Bearer ") a = false))
  \/ (exists a token e,
        authorization = Some a
        /\ startswith (lit "Bearer ") a = true
        /\ Auth.bearer_token a = Some token
        /\ decode token = inr e
        /\ get_current_user authorization
           = Raise (HTTPException 401 (lit "Invalid token")))
  \/ (exists a token claims,
        authorization = Some a
        /\ startswith (lit "Bearer ") a = true
        /\ Auth.bearer_token a = Some token
        /\ decode token = inl claims
        /\ get_current_user authorization = Return claims).
Proof.
  destruct authorization as [a|]; [|left; split; [done | by left]].
  destruct (startswith (lit "Bearer ") a) eqn:Hp.
  - destruct (bearer_token_in_range a Hp) as [token Ht].
    destruct (decode token) as [claims|e] eqn:Hd.
    + right; right. exists a, token, claims.
      eauto 10 using get_current_user_valid.
    + right; left. exists a, token, e.
      eauto 10 using get_current_user_invalid.
  - left. split; [|right; eauto].
    apply get_current_user_missing. right; eauto.
Qed.

(** The validation of the path identity reads the claim ["id"]. *)
Lemma user_id_validation_cases current_user user_id :
  match current_user !! lit "id" with
  | None =>
      Auth.user_id_validation current_user user_id = Raise (KeyError (lit "id"))
  | Some v =>
      if bool_decide (v = PyStr user_id)
      then Auth.user_id_validation current_user user_id = Return tt
      else Auth.user_id_validation current_user user_id
           = Raise (HTTPException 403 (lit "Forbidden"))
  end.
Proof.
  unfold Auth.user_id_validation.
  destruct (current_user !! lit "id") as [v|]; [|done].
  case_bool_decide as Hv.
  - subst v. simpl. by rewrite bool_decide_true.
  - destruct v as [ | b | z | s]; simpl; try done.
    rewrite bool_decide_false; [done | congruence].
Qed.

(** With a valid credential whose claims carry ["id"], the gate allows
    the owner. *)
Lemma gate_allows_id authorization token claims user_id :
  startswith (lit "Bearer ") authorization = true ->
  Auth.bearer_token authorization = Some token ->
  decode token = inl claims ->
  claims !! lit "id" = Some (PyStr user_id) ->
  ownership_gate (Some authorization) user_id = Return claims.
Proof.
  intros Hp Ht Hd Hid. unfold ownership_gate, Auth.ownership_gate.
  fold get_current_user. rewrite (get_current_user_valid _ _ _ Hp Ht Hd).
  simpl. pose proof (user_id_validation_cases claims user_id) as Hv.
  rewrite Hid, bool_decide_true in Hv by done. by rewrite Hv.
Qed.

(** With a valid credential whose claims carry another ["id"], the gate
    answers 403. *)
Lemma gate_forbids_id authorization token claims v user_id :
  startswith (lit "Bearer ") authorization = true ->
  Auth.bearer_token authorization = Some token ->
  decode token = inl claims ->
  claims !! lit "id" = Some v ->
  v <> PyStr user_id ->
  ownership_gate (Some authorization) user_id
  = Raise (HTTPException 403 (lit "Forbidden")).
Proof.
  intros Hp Ht Hd Hid Hne. unfold ownership_gate, Auth.ownership_gate.
  fold get_current_user. rewrite (get_current_user_valid _ _ _ Hp Ht Hd).
  simpl. pose proof (user_id_validation_cases claims user_id) as Hv.
  rewrite Hid, bool_decide_false in Hv by done. by rewrite Hv.
Qed.

(** With a valid credential whose claims have no ["id"], the subscript of
    the validation raises [KeyError], whatever the path identity. *)
Lemma gate_key_error authorization token claims user_id :
  startswith (lit "Bearer ") authorization = true ->
  Auth.bearer_token authorization = Some token ->
  decode token = inl claims ->
  claims !! lit "id" = None ->
  ownership_gate (Some authorization) user_id = Raise (KeyError (lit "id")).
Proof.
  intros Hp Ht Hd Hid. unfold ownership_gate, Auth.ownership_gate.
  fold get_current_user. rewrite (get_current_user_valid _ _ _ Hp Ht Hd).
  simpl. pose proof (user_id_validation_cases claims user_id) as Hv.
  rewrite Hid in Hv. by rewrite Hv.
Qed.


(** C2. A request with no credential (no [Authorization] header, or one
    that is not a bearer header) or with a credential the library refuses
    (bad signature, expired, malformed: any [InvalidTokenError]) is
    rejected with status 401, the Unauthenticated outcome, and never with
    403. *)
Theorem unauthenticated_without_valid_credential authorization user_id :
  authorization = None
  \/ (exists a, authorization = Some a
                /\ (startswith (lit "Bearer ") a = false
                    \/ exists token e, Auth.bearer_token a = Some token
                                       /\ decode token = inr e)) ->
  (exists detail,
      ownership_gate authorization user_id = Raise (HTTPException 401 detail))
  /\ outcome_of (ownership_gate authorization user_id) = Unauthenticated
  /\ outcome_of (ownership_gate authorization user_id) <> Forbidden.
Proof.
  intros H.
  assert (exists detail,
             get_current_user authorization = Raise (HTTPException 401 detail))
    as [detail Hg].
  { destruct H as [-> | (a & -> & [Hp | (token & e & Ht & Hd)])].
    - eexists. apply get_current_user_missing. by left.
    - eexists. apply get_current_user_missing. right; eauto.
    - destruct (startswith (lit "Bearer ") a) eqn:Hp.
      + eexists. by eapply get_current_user_invalid.
      + eexists. apply get_current_user_missing. right; eauto. }
  unfold ownership_gate, Auth.ownership_gate. fold get_current_user.
  rewrite Hg. simpl. eauto.
Qed.

(** The rejections the gate issues itself. Every [HTTPException] the
    gate raises carries 401 or 403, that
    is exactly one of the outcomes Unauthenticated and Forbidden; two
    credentials that fail verification for any two reasons (expired, bad
    signature, malformed, ...) get the same response, status and detail;
    and that response has the outcome of a request without credential:
    Unauthenticated. *)
Theorem rejections_collapse a1 a2 token1 token2 e1 e2 user_id1 user_id2 :
  startswith (lit "Bearer ") a1 = true ->
  startswith (lit "Bearer ") a2 = true ->
  Auth.bearer_token a1 = Some token1 ->
  Auth.bearer_token a2 = Some token2 ->
  decode token1 = inr e1 ->
  decode token2 = inr e2 ->
  ownership_gate (Some a1) user_id1 = ownership_gate (Some a2) user_id2
  /\ outcome_of (ownership_gate (Some a1) user_id1)
     = outcome_of (ownership_gate None user_id1)
  /\ outcome_of (ownership_gate None user_id1) = Unauthenticated
  /\ (forall authorization user_id status_code detail,
        ownership_gate authorization user_id
        = Raise (HTTPException status_code detail) ->
        (status_code = 401%Z
         /\ outcome_of (ownership_gate authorization user_id) = Unauthenticated)
        \/ (status_code = 403%Z
            /\ outcome_of (ownership_gate authorization user_id) = Forbidden)).
Proof.
  intros Hp1 Hp2 Ht1 Ht2 Hd1 Hd2.
  assert (forall a t e u, startswith (lit "Bearer ") a = true ->
            Auth.bearer_token a = Some t -> decode t = inr e ->
            ownership_gate (Some a) u
            = Raise (HTTPException 401 (lit "Invalid token"))) as Hinv.
  { intros a t e u Hp Ht Hd.
    unfold ownership_gate, Auth.ownership_gate. fold get_current_user.
    by rewrite (get_current_user_invalid _ _ _ Hp Ht Hd). }
  rewrite (Hinv _ _ _ user_id1 Hp1 Ht1 Hd1), (Hinv _ _ _ user_id2 Hp2 Ht2 Hd2).
  repeat split; try done.
  intros authorization user_id status_code detail.
  unfold ownership_gate, Auth.ownership_gate. fold get_current_user.
  destruct (get_current_user_cases authorization)
    as [[Hg _] | [(a & t & e & _ & _ & _ & _ & Hg) | (a & t & c & _ & _ & _ & _ & Hg)]];
    rewrite Hg; simpl.
  - intros [= <- <-]. by left.
  - intros [= <- <-]. by left.
  - pose proof (user_id_validation_cases c user_id) as Hv.
    destruct (c !! lit "id") as [v|]; [|by rewrite Hv].
    case_bool_decide; rewrite Hv; simpl; [done|].
    intros [= <- <-]. by right.
Qed.

End GateFacts.

(** *** The scenarios of section 8 of the specification

    The tokens issued to the application carry the identity in the claim
    [sub] (the acceptance criteria of US-5 and US-6, the comment on the
    [return] of [get_current_user], the architecture specification and the
    backend README), while the validation subscripts the claims with
    ["id"]. *)

(** C1. A valid credential for identity [u1], with the documented claims
    [sub] and [email], presented on the path of [u2]: the validation raises
    [KeyError('id')], which FastAPI answers with status 500; the outcome is
    neither Forbidden nor Unauthenticated. *)
Theorem documented_token_mismatch_is_not_forbidden :
  Auth.ownership_gate example_decode example_secret
    (Some (lit "Bearer ok.u1")) (lit "u2")
  = Raise (KeyError (lit "id"))
  /\ http_status (KeyError (lit "id")) = 500%Z
  /\ outcome_of (Auth.ownership_gate example_decode example_secret
                   (Some (lit "Bearer ok.u1")) (lit "u2")) <> Forbidden.
Proof. by vm_compute. Qed.

(** C4. The same credential presented on its own path, [u1]: the
    validation raises [KeyError('id')] as well, and the request is not
    allowed. *)
Theorem documented_token_match_is_not_allowed :
  Auth.ownership_gate example_decode example_secret
    (Some (lit "Bearer ok.u1")) (lit "u1")
  = Raise (KeyError (lit "id"))
  /\ outcome_of (Auth.ownership_gate example_decode example_secret
                   (Some (lit "Bearer ok.u1")) (lit "u1")) <> Allowed.
Proof. by vm_compute. Qed.

(** C5. The same credential is turned away on every path, its own
    included, with neither of the two outcomes: the validation raises
    [KeyError('id')] whatever the path identity, FastAPI answers 500, and
    the caller sees neither Unauthenticated nor Forbidden. (The
    rejections the gate issues itself, its [HTTPException]s, do collapse
    as specified: [rejections_collapse].) *)
Theorem documented_token_rejection_has_neither_outcome user_id :
  Auth.ownership_gate example_decode example_secret
    (Some (lit "Bearer ok.u1")) user_id
  = Raise (KeyError (lit "id"))
  /\ outcome_of (Auth.ownership_gate example_decode example_secret
                   (Some (lit "Bearer ok.u1")) user_id) = OtherError
  /\ outcome_of (Auth.ownership_gate example_decode example_secret
                   (Some (lit "Bearer ok.u1")) user_id) <> Unauthenticated
  /\ outcome_of (Auth.ownership_gate example_decode example_secret
                   (Some (lit "Bearer ok.u1")) user_id) <> Forbidden.
Proof.
  assert (Auth.ownership_gate example_decode example_secret
            (Some (lit "Bearer ok.u1")) user_id
          = Raise (KeyError (lit "id"))) as ->.
  { eapply gate_key_error; by vm_compute. }
  by vm_compute.
Qed.

(** With the claims of the test fixture [mock_user], which carry ["id"],
    the four scenarios come out as the specification lists them. *)
Example scenario_allow :
  outcome_of (Auth.ownership_gate example_decode example_secret
                (Some (lit "Bearer user.u1")) (lit "u1")) = Allowed.
Proof. by vm_compute. Qed.

Example scenario_forbidden :
  outcome_of (Auth.ownership_gate example_decode example_secret
                (Some (lit "Bearer user.u1")) (lit "u2")) = Forbidden.
Proof. by vm_compute. Qed.

Example scenario_no_credential :
  outcome_of (Auth.ownership_gate example_decode example_secret
                None (lit "u1")) = Unauthenticated.
Proof. by vm_compute. Qed.

Example scenario_expired :
  outcome_of (Auth.ownership_gate example_decode example_secret
                (Some (lit "Bearer expired.u1")) (lit "u1")) = Unauthenticated.
Proof. by vm_compute. Qed.

(** The two responses with status 401 differ in their detail only. *)
Example details_of_the_two_401 :
  Auth.ownership_gate example_decode example_secret None (lit "u1")
  = Raise (HTTPException 401 (lit "Missing or invalid token"))
  /\ Auth.ownership_gate example_decode example_secret
       (Some (lit "Bearer expired.u1")) (lit "u1")
     = Raise (HTTPException 401 (lit "Invalid token")).
Proof. by vm_compute. Qed.

Lemma unauthenticated_without_valid_credential_witness :
  (exists detail,
      Auth.ownership_gate example_decode example_secret
        (Some (lit "Bearer expired.u1")) (lit "u1")
      = Raise (HTTPException 401 detail))
  /\ outcome_of (Auth.ownership_gate example_decode example_secret
                   (Some (lit "Bearer expired.u1")) (lit "u1")) = Unauthenticated
  /\ outcome_of (Auth.ownership_gate example_decode example_secret
                   (Some (lit "Bearer expired.u1")) (lit "u1")) <> Forbidden.
Proof.
  apply (unauthenticated_without_valid_credential example_decode example_secret).
  right. exists (lit "Bearer expired.u1"). split; [reflexivity|].
  right. exists (lit "expired.u1"), ExpiredSignatureError.
  split; vm_compute; reflexivity.
Defined.

Lemma rejections_collapse_witness :
  Auth.ownership_gate example_decode example_secret
    (Some (lit "Bearer expired.u1")) (lit "u1")
  = Auth.ownership_gate example_decode example_secret
      (Some (lit "Bearer bad.u1")) (lit "u1")
  /\ outcome_of (Auth.ownership_gate example_decode example_secret
                   (Some (lit "Bearer expired.u1")) (lit "u1"))
     = outcome_of (Auth.ownership_gate example_decode example_secret
                     None (lit "u1")).
Proof.
  destruct (rejections_collapse example_decode example_secret
              (lit "Bearer expired.u1") (lit "Bearer bad.u1")
              (lit "expired.u1") (lit "bad.u1")
              ExpiredSignatureError InvalidSignatureError (lit "u1") (lit "u1"))
    as (H1 & H2 & _); try (vm_compute; reflexivity).
  split; [exact H1 | exact H2].
Defined.

(** ** The routes *)





Section CrudFacts.





End CrudFacts.

Section RouteFacts.

Variable jwt_decode : text -> text -> list text -> payload + InvalidTokenError.
Variable BETTER_AUTH_SECRET : text.

Let ownership_gate := Auth.ownership_gate jwt_decode BETTER_AUTH_SECRET.
Let handle := Routes.handle jwt_decode BETTER_AUTH_SECRET.


(** A handler never answers 401 or 403 after the gate, so the outcome a
    caller reads off the response is the outcome of the gate. *)
Lemma seen_outcome_gate d authorization user_id op session :
  seen_outcome (fst (handle d authorization user_id op session))
  = outcome_of (ownership_gate authorization user_id).
Proof.
  unfold handle, Routes.handle. fold ownership_gate.
  destruct (ownership_gate authorization user_id) as [claims|e] eqn:Hg.
  - simpl.
    destruct op; unfold Routes.proceed; simpl; try done;
      destruct (head _); done.
  - simpl. destruct e as [s dt| |]; simpl; try done.
    destruct (s =? 401)%Z eqn:E1; [done|].
    destruct (s =? 403)%Z eqn:E2; [done|].
    exfalso.
    destruct (get_current_user_cases jwt_decode BETTER_AUTH_SECRET authorization)
      as [[H _] | [(a & t & e & _ & _ & _ & _ & H) | (a & t & c & _ & _ & _ & _ & H)]];
      unfold ownership_gate, Auth.ownership_gate in Hg; rewrite H in Hg;
      simpl in Hg; try (by injection Hg as <- <-).
    pose proof (user_id_validation_cases c user_id) as Hv.
    destruct (c !! lit "id") as [v|]; [|by rewrite Hv in Hg].
    case_bool_decide; rewrite Hv in Hg; simpl in Hg; [done|].
    by injection Hg as <- <-.
Qed.


End RouteFacts.

(** ** The client: [lib/api.js] *)

Section ApiFacts.

Variable NEXT_PUBLIC_API_URL : option text.
Variable fetch : Request -> promise Response.
Variable URLSearchParams_toString : list (text * text) -> text.

Let endpoint := Api.endpoint URLSearchParams_toString.
Let apiRequest := Api.apiRequest NEXT_PUBLIC_API_URL fetch.
Let tasksAPI := Api.tasksAPI NEXT_PUBLIC_API_URL fetch URLSearchParams_toString.



(** What [apiRequest] does with a response, before it logs and rethrows. *)
Lemma apiRequest_resolved endpoint0 options w response :
  fetch (Api.build_request NEXT_PUBLIC_API_URL endpoint0 options w)
  = Resolved response ->
  apiRequest endpoint0 options w
  = match Api.on_response response w with
    | (Rejected error, w') => (Rejected error, log_error error w')
    | (Resolved data, w') => (Resolved data, w')
    end.
Proof.
  intros Hf. unfold apiRequest, Api.apiRequest. rewrite Hf.
  by destruct (Api.on_response response w) as [[data|error] w'].
Qed.

(** A status that is not [ok] always ends in a rejection. *)
Lemma on_response_not_ok response w :
  ok response = false ->
  exists e, fst (Api.on_response response w) = Rejected e.
Proof.
  intros Hok. unfold Api.on_response.
  destruct (status response =? 401)%Z eqn:E1; [by eexists|].
  destruct (status response =? 403)%Z eqn:E2; [by eexists|].
  destruct (status response =? 404)%Z eqn:E3; [by eexists|].
  destruct (status response =? 422)%Z eqn:E4.
  { destruct (json_body response) as [errorData|]; [|by eexists].
    destruct (detail_of errorData); by eexists. }
  destruct (status response =? 204)%Z eqn:E5.
  { apply Z.eqb_eq in E5. unfold ok in Hok. rewrite E5 in Hok. done. }
  rewrite Hok. simpl.
  destruct (detail_of _); by eexists.
Qed.

(** Only status 401 touches the stored authentication or the location. *)
Lemma on_response_state response w :
  status response <> 401%Z ->
  snd (Api.on_response response w) = w.
Proof.
  intros Hs. unfold Api.on_response.
  apply Z.eqb_neq in Hs. rewrite Hs.
  repeat match goal with
         | |- context [if ?b then _ else _] => destruct b
         | |- context [match ?x with _ => _ end] => destruct x
         end; done.
Qed.

(** C10, as amended. Given the response [fetch] resolves to:
    - status 204: [null] is returned, the body unread;
    - any other [ok] status: the parsed body is returned when the body is
      JSON (so [null] is returned for the body [null]), and the
      [SyntaxError] of [response.json()] is thrown when it is not;
    - status 401, 403, 404: an [Error] with the message of that branch is
      thrown; status 422 and every other status that is not [ok]: an
      error is thrown;
    - so a normal return implies an [ok] status;
    - status 401, where [window] is defined: ['auth_token'] and
      ['auth_user'] are removed from [localStorage] and the location
      becomes [/login];
    - any other status: [localStorage] and the location are unchanged. *)
Theorem apiRequest_outcomes endpoint0 options w response :
  fetch (Api.build_request NEXT_PUBLIC_API_URL endpoint0 options w)
  = Resolved response ->
  let result := fst (apiRequest endpoint0 options w) in
  let w' := snd (apiRequest endpoint0 options w) in
  (status response = 204%Z -> result = Resolved JNull)
  /\ (ok response = true -> status response <> 204%Z ->
      result = match json_body response with
               | Some data => Resolved data
               | None => Rejected SyntaxError
               end)
  /\ (status response = 401%Z ->
      result = Rejected (Error (JStr (lit "Unauthorized"))))
  /\ (status response = 403%Z ->
      result = Rejected (Error (JStr (lit "Access denied"))))
  /\ (status response = 404%Z ->
      result = Rejected (Error (JStr (lit "Resource not found"))))
  /\ (ok response = false -> exists e, result = Rejected e)
  /\ ((exists data, result = Resolved data) -> ok response = true)
  /\ (status response = 401%Z -> window w = true ->
      localStorage w'
      = delete (lit "auth_user") (delete (lit "auth_token") (localStorage w))
      /\ location_href w' = Some (lit "/login"))
  /\ (status response <> 401%Z ->
      localStorage w' = localStorage w /\ location_href w' = location_href w).
Proof.
  intros Hf result w'. unfold result, w'.
  rewrite (apiRequest_resolved _ _ _ _ Hf). clear result w'.
  assert (forall p : promise json * Browser,
             fst (match p with
                  | (Rejected error, w1) => (Rejected error, log_error error w1)
                  | (Resolved data, w1) => (Resolved data, w1)
                  end) = fst p) as Hfst.
  { by intros [[?|?] ?]. }
  assert (forall p : promise json * Browser,
             localStorage (snd (match p with
                  | (Rejected error, w1) => (Rejected error, log_error error w1)
                  | (Resolved data, w1) => (Resolved data, w1)
                  end)) = localStorage (snd p)
             /\ location_href (snd (match p with
                  | (Rejected error, w1) => (Rejected error, log_error error w1)
                  | (Resolved data, w1) => (Resolved data, w1)
                  end)) = location_href (snd p)) as Hsnd.
  { by intros [[?|?] ?]. }
  rewrite Hfst.
  destruct (Hsnd (Api.on_response response w)) as [-> ->].
  repeat split.
  - intros Hs. unfold Api.on_response. by rewrite Hs.
  - intros Hok Hs. unfold Api.on_response.
    unfold ok in Hok. apply andb_true_iff in Hok as [H1 H2].
    apply Z.leb_le in H1, H2.
    rewrite (proj2 (Z.eqb_neq _ 401%Z)) by lia.
    rewrite (proj2 (Z.eqb_neq _ 403%Z)) by lia.
    rewrite (proj2 (Z.eqb_neq _ 404%Z)) by lia.
    rewrite (proj2 (Z.eqb_neq _ 422%Z)) by lia.
    rewrite (proj2 (Z.eqb_neq _ 204%Z)) by lia.
    unfold ok. rewrite (proj2 (Z.leb_le _ _) H1), (proj2 (Z.leb_le _ _) H2).
    simpl. by destruct (json_body response).
  - intros Hs. unfold Api.on_response. by rewrite Hs.
  - intros Hs. unfold Api.on_response. by rewrite Hs.
  - intros Hs. unfold Api.on_response. by rewrite Hs.
  - intros Hok. by apply on_response_not_ok.
  - intros [data Hd]. destruct (ok response) eqn:Hok; [done|].
    destruct (on_response_not_ok response w Hok) as [e He]. congruence.
  - unfold Api.on_response. rewrite H. simpl. by rewrite H0.
  - unfold Api.on_response. rewrite H. simpl. by rewrite H0.
  - by rewrite on_response_state.
  - by rewrite on_response_state.
Qed.

End ApiFacts.

(** ** Isolation of owners, server and client *)

Section Isolation.

Variable jwt_decode : text -> text -> list text -> payload + InvalidTokenError.
Variable BETTER_AUTH_SECRET : text.
Variable NEXT_PUBLIC_API_URL : option text.
Variable fetch : Request -> promise Response.
Variable URLSearchParams_toString : list (text * text) -> text.

Let ownership_gate := Auth.ownership_gate jwt_decode BETTER_AUTH_SECRET.
Let handle := Routes.handle jwt_decode BETTER_AUTH_SECRET.
Let endpoint := Api.endpoint URLSearchParams_toString.


End Isolation.

Lemma example_session_primary_key :
  NoDup (List.map Models.id (rows example_session)).
Proof. apply (bool_decide_unpack _). by vm_compute. Defined.



(** ** The gate, evaluated twice *)

Section GateTwice.

(** [jwt.decode] called at a given time: the library reads the clock to
    check the claim [exp] ("Expired JWT returns 401 Unauthorized", US-5). *)
Variable jwt_decode_at :
  Z -> text -> text -> list text -> payload + InvalidTokenError.
Variable BETTER_AUTH_SECRET : text.



End GateTwice.



(** C10, counterexample. A response with status 200 whose body is the JSON
    [null] makes [apiRequest] return [null] although the status is not 204;
    a response with status 200 whose body is not JSON makes it throw
    although the status is [ok]; and on the server, where [window] is
    undefined, a 401 response redirects nowhere. *)
Lemma apiRequest_null_without_204 :
  fst (Api.apiRequest None
         (example_fetch {| status := 200; json_body := Some JNull |})
         (lit "/api/u1/tasks") Api.no_options example_browser)
  = Resolved JNull
  /\ fst (Api.apiRequest None
            (example_fetch {| status := 200; json_body := None |})
            (lit "/api/u1/tasks") Api.no_options example_browser)
     = Rejected SyntaxError
  /\ location_href
       (snd (Api.apiRequest None
               (example_fetch {| status := 401; json_body := None |})
               (lit "/api/u1/tasks") Api.no_options example_server))
     = None.
Proof. by vm_compute. Qed.

Lemma apiRequest_outcomes_witness :
  fst (Api.apiRequest None
         (example_fetch {| status := 204; json_body := None |})
         (lit "/api/u1/tasks/t1") (Api.with_method "DELETE" None) example_browser)
  = Resolved JNull.
Proof.
  refine (proj1 (apiRequest_outcomes None
                   (example_fetch {| status := 204; json_body := None |})
                   (lit "/api/u1/tasks/t1") (Api.with_method "DELETE" None)
                   example_browser {| status := 204; json_body := None |}
                   eq_refl) eq_refl).
Defined.

(** ** The client: [lib/auth.js] *)

Lemma latin1_Latin1 s : latin1 s = true <-> Latin1 s.
Proof.
  unfold latin1, Latin1. induction s as [|c s IH]; simpl.
  - split; [constructor | done].
  - rewrite andb_true_iff, N.leb_le, IH. split.
    + intros [? ?]. by constructor.
    + by inversion 1.
Qed.

Lemma Latin1_lit_closed s : latin1 s = true -> Latin1 s.
Proof. apply latin1_Latin1. Qed.

Lemma land_15_le x : N.land x 15 <= 15.
Proof.
  change 15 with (N.ones 4). rewrite N.land_ones.
  pose proof (N.mod_upper_bound x (2 ^ 4)) as H.
  change (N.ones 4) with 15. change (2 ^ 4) with 16 in *. lia.
Qed.

Lemma land_63_lt x : N.land x 63 < 64.
Proof.
  change 63 with (N.ones 6). rewrite N.land_ones.
  apply N.mod_upper_bound. done.
Qed.

Lemma hex_digit_le d : d <= 35 -> hex_digit d <= 122.
Proof. unfold hex_digit. destruct (d <? 10) eqn:E; [apply N.ltb_lt in E|]; lia. Qed.

Lemma unicode_escape_Latin1 c : Latin1 (unicode_escape c).
Proof.
  unfold unicode_escape, Latin1.
  repeat constructor; try lia;
    (apply (N.le_trans _ 122); [|lia]; apply hex_digit_le;
     apply (N.le_trans _ 15); [apply land_15_le | lia]).
Qed.

Lemma quote_unit_Latin1 c : c <= 255 -> Latin1 (quote_unit c).
Proof.
  intros Hc. unfold quote_unit.
  repeat match goal with
         | |- context [if ?b then _ else _] => destruct b
         end;
    try (apply Latin1_lit_closed; by vm_compute);
    try apply unicode_escape_Latin1.
  by repeat constructor.
Qed.

Lemma quote_body_Latin1 s : Latin1 s -> Latin1 (quote_body s).
Proof.
  induction 1 as [|c r Hc Hr IH]; [constructor|].
  simpl. destruct r as [|d r'].
  - by apply quote_unit_Latin1.
  - assert (is_high_surrogate c = false) as ->.
    { unfold is_high_surrogate. apply andb_false_iff. left.
      apply N.leb_gt. lia. }
    simpl. apply Forall_app. split; [by apply quote_unit_Latin1 | done].
Qed.

Lemma quote_Latin1 s : Latin1 s -> Latin1 (quote s).
Proof.
  intros H. unfold quote. constructor; [lia|].
  apply Forall_app. split; [by apply quote_body_Latin1 | by repeat constructor].
Qed.

Lemma digits_of_uint_Latin1 d : Latin1 (digits_of_uint d).
Proof. induction d; simpl; constructor; (lia || done). Qed.

Lemma decimal_Latin1 n : Latin1 (decimal n).
Proof. apply digits_of_uint_Latin1. Qed.

Lemma decimal_nonempty n : decimal n <> [].
Proof.
  unfold decimal. destruct n as [|p]; [done|]. simpl.
  pose proof (Unsigned.to_uint_nonnil p) as H.
  by destruct (Pos.to_uint p).
Qed.

Lemma format_Latin1 digits n : Latin1 digits -> Latin1 (Number.format digits n).
Proof.
  intros Hd. unfold Number.format, Latin1 in *.
  destruct (_ && _)%bool.
  { apply Forall_app. split; [done|]. apply Forall_replicate. lia. }
  destruct (_ && _)%bool.
  { apply Forall_app. split; [by apply Forall_take|].
    constructor; [lia|]. by apply Forall_drop. }
  destruct (_ && _)%bool.
  { apply Forall_app. split; [apply Latin1_lit_closed; by vm_compute|].
    apply Forall_app. split; [|done]. apply Forall_replicate. lia. }
  apply Forall_app. split.
  - destruct digits as [|d [|d' r]]; [constructor | done |].
    inversion Hd as [|? ? Hd1 Hd2]; subst.
    constructor; [done|]. constructor; [lia | done].
  - constructor; [lia|]. constructor; [by destruct (_ <? _)%Z|].
    apply decimal_Latin1.
Qed.

Lemma format_nonempty digits n : digits <> [] -> Number.format digits n <> [].
Proof.
  intros Hd. unfold Number.format.
  destruct (_ && _)%bool; [by destruct digits|].
  destruct (_ && _)%bool; [by destruct (take _ digits)|].
  destruct (_ && _)%bool; [done|].
  by destruct digits as [|d [|d' r]].
Qed.

Lemma toString_finite_Latin1 m e : Latin1 (Number.toString_finite m e).
Proof.
  unfold Number.toString_finite.
  destruct (Number.shortest _ _ _ _ _) as [c p].
  destruct (Number.strip _ _ _) as [s p'].
  apply format_Latin1, decimal_Latin1.
Qed.

Lemma toString_finite_nonempty m e : Number.toString_finite m e <> [].
Proof.
  unfold Number.toString_finite.
  destruct (Number.shortest _ _ _ _ _) as [c p].
  destruct (Number.strip _ _ _) as [s p'].
  apply format_nonempty, decimal_nonempty.
Qed.

Lemma sign_Latin1 (s : bool) : Latin1 (if s then [45] else []).
Proof. destruct s; repeat constructor. lia. Qed.

Lemma number_toString_Latin1 x : Latin1 (number_toString x).
Proof.
  destruct x as [s|s| |s m e]; unfold number_toString.
  - apply Latin1_lit_closed. by vm_compute.
  - apply Forall_app. split; [apply sign_Latin1|].
    apply Latin1_lit_closed. by vm_compute.
  - apply Latin1_lit_closed. by vm_compute.
  - apply Forall_app. split; [apply sign_Latin1|].
    destruct (SpecFloat.binary_round _ _ _ _ _) as [s'|s'| |s' m' e'].
    + apply Latin1_lit_closed. by vm_compute.
    + apply Latin1_lit_closed. by vm_compute.
    + apply Latin1_lit_closed. by vm_compute.
    + apply toString_finite_Latin1.
Qed.

Lemma number_toString_nonempty x : number_toString x <> [].
Proof.
  destruct x as [s|s| |s m e]; unfold number_toString.
  - discriminate.
  - destruct s; discriminate.
  - discriminate.
  - intros [_ H]%app_eq_nil. revert H.
    destruct (SpecFloat.binary_round _ _ _ _ _) as [s'|s'| |s' m' e'];
      [discriminate | discriminate | discriminate |].
    apply toString_finite_nonempty.
Qed.

(** A Number as [JSON.stringify] writes it. *)
Lemma JSON_stringify_number_Latin1 x : Latin1 (JSON_stringify (JNum x)).
Proof.
  change (JSON_stringify (JNum x))
    with (if isFinite x then number_toString x else lit "null").
  destruct (isFinite x); [apply number_toString_Latin1|].
  apply Latin1_lit_closed. by vm_compute.
Qed.

Lemma toString36_Latin1 random : Latin1 (toString36 random).
Proof.
  unfold toString36. destruct random as [|d r].
  - apply Latin1_lit_closed. by vm_compute.
  - apply Forall_app. split; [apply Latin1_lit_closed; by vm_compute|].
    apply Forall_forall. intros c Hc. apply in_map_iff in Hc as (x & <- & _).
    unfold digit36. apply (N.le_trans _ 122); [|lia]. apply hex_digit_le.
    pose proof (N.mod_upper_bound x 36). lia.
Qed.

Lemma mockUser_id_Latin1 random : Latin1 (AuthJs.mockUser_id random).
Proof.
  unfold AuthJs.mockUser_id, substr. apply Forall_app.
  split; [apply Latin1_lit_closed; by vm_compute|].
  apply Forall_take, Forall_drop, toString36_Latin1.
Qed.

Lemma JSON_stringify_object4 k1 v1 k2 v2 k3 v3 k4 v4 :
  JSON_stringify (JObj [(k1, v1); (k2, v2); (k3, v3); (k4, v4)])
  = 123 :: (quote k1 ++ 58 :: JSON_stringify v1
            ++ 44 :: quote k2 ++ 58 :: JSON_stringify v2
            ++ 44 :: quote k3 ++ 58 :: JSON_stringify v3
            ++ 44 :: quote k4 ++ 58 :: JSON_stringify v4) ++ [125].
Proof. reflexivity. Qed.

(** The text [login] hands to [btoa] has no code unit above 255 when the
    email has none. *)
Lemma mockClaims_Latin1 random email now_iat now_exp :
  Latin1 email ->
  Latin1 (JSON_stringify (AuthJs.mockClaims random email now_iat now_exp)).
Proof.
  intros He. unfold AuthJs.mockClaims. rewrite JSON_stringify_object4.
  change (JSON_stringify (JStr ?s)) with (quote s).
  assert (forall s, latin1 s = true -> Latin1 (quote s)) as Hq
    by (intros s Hs; by apply quote_Latin1, latin1_Latin1).
  unfold Latin1 in *.
  constructor; [lia|]. apply Forall_app; split; [|by repeat constructor].
  apply Forall_app; split; [apply Hq; by vm_compute|]. constructor; [lia|].
  apply Forall_app; split; [apply quote_Latin1, mockUser_id_Latin1|].
  constructor; [lia|].
  apply Forall_app; split; [apply Hq; by vm_compute|]. constructor; [lia|].
  apply Forall_app; split; [by apply quote_Latin1|]. constructor; [lia|].
  apply Forall_app; split; [apply Hq; by vm_compute|]. constructor; [lia|].
  apply Forall_app; split; [apply JSON_stringify_number_Latin1|].
  constructor; [lia|].
  apply Forall_app; split; [apply Hq; by vm_compute|]. constructor; [lia|].
  apply JSON_stringify_number_Latin1.
Qed.

(** The alphabet of [btoa] has no full stop, the separator of the three
    parts of a signed token. *)
Lemma b64_char_not_dot i : b64_char i <> 46.
Proof.
  unfold b64_char.
  assert (N.to_nat (N.land i 63) < 64)%nat as Hlt
    by (pose proof (land_63_lt i); lia).
  revert Hlt. generalize (N.to_nat (N.land i 63)). intros n Hn.
  do 64 (destruct n as [|n]; [by vm_compute|]). lia.
Qed.

Lemma b64_encode_no_dot : forall bytes, 46 ∉ b64_encode bytes.
Proof.
  fix IH 1. intros [|a [|b [|c r]]]; simpl; rewrite ?not_elem_of_cons;
    repeat split;
    try apply not_elem_of_nil; try apply IH; try done;
    intros E; symmetry in E; by apply b64_char_not_dot in E.
Qed.

(** [s.split(sep)[0]] is the part of [s] before the first [sep]. *)
Lemma split_head sep s :
  exists w rest,
    head (split sep s) = Some w
    /\ s = w ++ rest
    /\ (sep ∉ w)
    /\ (rest = [] \/ exists r, rest = sep :: r).
Proof.
  induction s as [|c s (w & rest & Hh & Hs & Hw & Hr)]; simpl.
  - exists [], []. repeat split; [apply not_elem_of_nil | by left].
  - destruct (c =? sep) eqn:E.
    + apply N.eqb_eq in E as ->. exists [], (sep :: s).
      repeat split; [apply not_elem_of_nil | right; eauto].
    + apply N.eqb_neq in E.
      destruct (split sep s) as [|w' ws]; [done|].
      simpl in Hh. injection Hh as ->.
      exists (c :: w), rest. simpl. repeat split; [by rewrite Hs | | done].
      rewrite not_elem_of_cons. split; [congruence | done].
Qed.

Lemma JSON_stringify_nonempty v : JSON_stringify v <> [].
Proof.
  destruct v as [ | [|] | x | s | items | properties]; try done.
  change (JSON_stringify (JNum x))
    with (if isFinite x then number_toString x else lit "null").
  destruct (isFinite x); [apply number_toString_nonempty | done].
Qed.

Lemma auth_keys_differ : AuthJs.AUTH_TOKEN_KEY <> AuthJs.AUTH_USER_KEY.
Proof. by vm_compute. Qed.

(** [login] resolves exactly when the serialised claims are within the
    range [btoa] accepts. *)
Lemma login_resolves_iff random now_iat now_exp email password w :
  (exists user, fst (AuthJs.login random now_iat now_exp email password w)
                = Resolved user)
  <-> latin1 (JSON_stringify (AuthJs.mockClaims random email now_iat now_exp))
      = true.
Proof.
  unfold AuthJs.login, btoa.
  destruct (latin1 _); simpl; split; try done; eauto.
  by intros [? ?].
Qed.

(** The claims of the token, one by one. *)
Lemma mockClaims_properties random email now_iat now_exp :
  let claims := AuthJs.mockClaims random email now_iat now_exp in
  property (lit "sub") claims = Some (JStr (AuthJs.mockUser_id random))
  /\ property (lit "iat") claims
     = Some (JNum (Number.div (Number.of_Z now_iat) (Number.of_Z 1000)))
  /\ property (lit "exp") claims
     = Some (JNum (Number.add
                     (Number.div (Number.of_Z now_exp) (Number.of_Z 1000))
                     (Number.of_Z 86400))).
Proof.
  unfold AuthJs.mockClaims, property, assoc.
  repeat (rewrite bool_decide_eq_false_2 by by vm_compute).
  by rewrite bool_decide_eq_true_2.
Qed.

(** C8, as amended. For an email whose code units are all at most 255,
    whatever the password: [login] resolves with the user [mockUser], whose
    [email] is the given one and whose [name] is the part of the email
    before the first ['@'] (the whole email when it has none); the token is
    [btoa] of the serialised claims, with no signature part; the claim
    [sub] is the user's [id], [iat] is the first clock reading divided by
    1000 and [exp] is the second clock reading divided by 1000, plus
    86400, both as doubles, so that [exp] is the floating-point sum of
    [iat] and 86400 when the two readings coincide; where [window] is
    defined the token and the serialised user are stored, and elsewhere
    nothing is stored; [signup] is [login] without its [name]. *)
Theorem login_mock_token random now_iat now_exp email password w :
  latin1 email = true ->
  let user := AuthJs.mockUser random email in
  let claims := AuthJs.mockClaims random email now_iat now_exp in
  let iat := Number.div (Number.of_Z now_iat) (Number.of_Z 1000) in
  exists token,
    btoa (JSON_stringify claims) = Some token
    /\ AuthJs.login random now_iat now_exp email password w
       = (Resolved user, AuthJs.setAuth user token w)
    /\ (46 ∉ token)
    /\ property (lit "email") user = Some (JStr email)
    /\ (exists name rest,
          property (lit "name") user = Some (JStr name)
          /\ email = name ++ rest
          /\ (64 ∉ name)
          /\ (rest = [] \/ exists r, rest = 64 :: r))
    /\ property (lit "sub") claims = property (lit "id") user
    /\ property (lit "iat") claims = Some (JNum iat)
    /\ property (lit "exp") claims
       = Some (JNum (Number.add
                       (Number.div (Number.of_Z now_exp) (Number.of_Z 1000))
                       (Number.of_Z 86400)))
    /\ (now_exp = now_iat ->
        property (lit "exp") claims
        = Some (JNum (Number.add iat (Number.of_Z 86400))))
    /\ (if window w
        then AuthJs.getToken (AuthJs.setAuth user token w) = Some token
             /\ localStorage (AuthJs.setAuth user token w) !! AuthJs.AUTH_USER_KEY
                = Some (JSON_stringify user)
        else AuthJs.setAuth user token w = w)
    /\ (forall password',
          AuthJs.login random now_iat now_exp email password' w
          = AuthJs.login random now_iat now_exp email password w)
    /\ (forall name,
          AuthJs.signup random now_iat now_exp email password name w
          = AuthJs.login random now_iat now_exp email password w).
Proof.
  intros He user claims iat.
  assert (latin1 (JSON_stringify claims) = true) as Hl
    by (apply latin1_Latin1, mockClaims_Latin1, latin1_Latin1, He).
  destruct (mockClaims_properties random email now_iat now_exp)
    as (Hsub & Hiat & Hexp).
  fold claims in Hsub, Hiat, Hexp.
  exists (b64_encode (JSON_stringify claims)).
  assert (btoa (JSON_stringify claims)
          = Some (b64_encode (JSON_stringify claims))) as Hb
    by (unfold btoa; by rewrite Hl).
  split; [done|]. split; [unfold AuthJs.login; fold user claims; by rewrite Hb|].
  split; [apply b64_encode_no_dot|].
  split.
  { unfold user, AuthJs.mockUser, property, assoc.
    rewrite bool_decide_eq_false_2 by by vm_compute.
    by rewrite bool_decide_eq_true_2. }
  split.
  { destruct (split_head 64 email) as (name & rest & Hh & Hs & Hn & Hr).
    exists name, rest. split; [|done].
    unfold user, AuthJs.mockUser, property, assoc. rewrite Hh.
    repeat (rewrite bool_decide_eq_false_2 by by vm_compute).
    by rewrite bool_decide_eq_true_2. }
  split.
  { rewrite Hsub. unfold user, AuthJs.mockUser, property, assoc.
    by rewrite bool_decide_eq_true_2. }
  split; [done|]. split; [done|].
  split; [by intros ->|].
  split; [|done].
  unfold AuthJs.setAuth, AuthJs.getToken.
  destruct (window w) eqn:Hw; simpl; [|done].
  rewrite Hw. simpl. split.
  - apply lookup_insert_eq.
  - rewrite lookup_insert_ne by apply auth_keys_differ.
    apply lookup_insert_eq.
Qed.

(** C8, counterexample. An email with a code unit above 255 (here a Greek
    lambda) makes [btoa] throw, so [login] rejects; when the clock ticks
    between the two readings of [Date.now()], [exp] is not the sum of
    [iat] and 86400; when it does not tick, the sum is rounded: at the
    reading 2147397248003 the token carries [iat] 2147397248.003 and
    [exp] 2147483648.0030003; and where [window] is undefined, [login]
    resolves and stores nothing. *)
Lemma login_rejects_non_latin1_email :
  fst (AuthJs.login example_random 1700000000123 1700000000123
         (955 :: lit "@example.com") (lit "pw") example_browser)
  = Rejected InvalidCharacterError
  /\ property (lit "exp")
       (AuthJs.mockClaims example_random (lit "ada@example.com")
          1700000000999 1700000001000)
     <> Some (JNum (Number.add
                      (Number.div (Number.of_Z 1700000000999) (Number.of_Z 1000))
                      (Number.of_Z 86400)))
  /\ (JSON_stringify
        (JNum (Number.div (Number.of_Z 2147397248003) (Number.of_Z 1000)))
      = lit "2147397248.003"
      /\ JSON_stringify
           (JNum (Number.add
                    (Number.div (Number.of_Z 2147397248003) (Number.of_Z 1000))
                    (Number.of_Z 86400)))
         = lit "2147483648.0030003")
  /\ (fst (AuthJs.login example_random 1700000000123 1700000000123
             (lit "ada@example.com") (lit "pw") example_server)
      = Resolved example_user
      /\ AuthJs.getToken
           (snd (AuthJs.login example_random 1700000000123 1700000000123
                   (lit "ada@example.com") (lit "pw") example_server))
         = None).
Proof. by vm_compute. Qed.

Lemma login_mock_token_witness :
  exists token,
    AuthJs.login example_random 1700000000123 1700000000123
      (lit "ada@example.com") (lit "pw") example_browser
    = (Resolved example_user, AuthJs.setAuth example_user token example_browser).
Proof.
  destruct (login_mock_token example_random 1700000000123 1700000000123
              (lit "ada@example.com") (lit "pw") example_browser eq_refl)
    as (token & _ & H & _).
  exists token. exact H.
Defined.

Section AuthState.

Variable JSON_parse : text -> option json.

Let getUser := AuthJs.getUser JSON_parse.
Let isAuthenticated := AuthJs.isAuthenticated JSON_parse.

Lemma getUser_setAuth user token w :
  window w = true ->
  JSON_parse (JSON_stringify user) = Some user ->
  getUser (AuthJs.setAuth user token w) = user.
Proof.
  intros Hw Hp. unfold getUser, AuthJs.getUser, AuthJs.setAuth.
  rewrite Hw. simpl. rewrite Hw. simpl.
  rewrite lookup_insert_ne by apply auth_keys_differ.
  rewrite lookup_insert_eq.
  pose proof (JSON_stringify_nonempty user) as Hne.
  destruct (JSON_stringify user) eqn:E; [done|]. by rewrite Hp.
Qed.

Lemma getToken_setAuth user token w :
  window w = true ->
  AuthJs.getToken (AuthJs.setAuth user token w) = Some token.
Proof.
  intros Hw. unfold AuthJs.getToken, AuthJs.setAuth.
  rewrite Hw. simpl. rewrite Hw. simpl. apply lookup_insert_eq.
Qed.

Lemma cleared w :
  getUser (AuthJs.clearAuth w) = JNull
  /\ AuthJs.getToken (AuthJs.clearAuth w) = None.
Proof.
  unfold getUser, AuthJs.getUser, AuthJs.getToken, AuthJs.clearAuth.
  destruct (window w) eqn:Hw; simpl; rewrite Hw; simpl; [|done].
  rewrite lookup_delete_eq.
  rewrite lookup_delete_ne by (intros E; by apply auth_keys_differ).
  by rewrite lookup_delete_eq.
Qed.

Lemma isAuthenticated_iff w :
  isAuthenticated w = true
  <-> (exists token, AuthJs.getToken w = Some token /\ token <> [])
      /\ truthy (getUser w) = true.
Proof.
  unfold isAuthenticated, AuthJs.isAuthenticated. fold getUser.
  rewrite andb_true_iff.
  assert (truthy_text (AuthJs.getToken w) = true
          <-> exists token, AuthJs.getToken w = Some token /\ token <> []) as ->;
    [|done].
  destruct (AuthJs.getToken w) as [[|c t]|]; simpl; split; try done.
  - by intros (token & [= <-] & ?).
  - intros _. by eexists.
  - by intros (token & ? & ?).
Qed.

(** C9, as amended. Where [window] is defined and [JSON.parse] reads back
    what [JSON.stringify] wrote for [user]: after [setAuth(user, token)],
    [getUser()] is [user] and [getToken()] is [token]. In every context,
    after [clearAuth()] both are [null]; [isAuthenticated()] is true
    exactly when [getToken()] is a non-empty string and [getUser()] is
    truthy; it is false where [window] is undefined; and after
    [setAuth(user, token)] it is [!!token && !!user], whatever the token
    says about its expiry. *)
Theorem auth_state_round_trip user token w :
  window w = true ->
  JSON_parse (JSON_stringify user) = Some user ->
  getUser (AuthJs.setAuth user token w) = user
  /\ AuthJs.getToken (AuthJs.setAuth user token w) = Some token
  /\ isAuthenticated (AuthJs.setAuth user token w)
     = truthy_text (Some token) && truthy user
  /\ (forall w0,
        getUser (AuthJs.clearAuth w0) = JNull
        /\ AuthJs.getToken (AuthJs.clearAuth w0) = None)
  /\ (forall w0,
        isAuthenticated w0 = true
        <-> (exists t, AuthJs.getToken w0 = Some t /\ t <> [])
            /\ truthy (getUser w0) = true)
  /\ (forall w0, window w0 = false -> isAuthenticated w0 = false).
Proof.
  intros Hw Hp.
  split; [by apply getUser_setAuth|].
  split; [by apply getToken_setAuth|].
  split.
  { unfold isAuthenticated, AuthJs.isAuthenticated. fold getUser.
    by rewrite getToken_setAuth, getUser_setAuth. }
  split; [apply cleared|]. split; [apply isAuthenticated_iff|].
  intros w0 Hw0. unfold isAuthenticated, AuthJs.isAuthenticated, AuthJs.getToken.
  by rewrite Hw0.
Qed.

End AuthState.

(** C9, counterexample. After [setAuth(user, '')] in a browser, [getToken()]
    returns the empty string and [getUser()] the user, neither of them
    [null], yet [isAuthenticated()] is false; and where [window] is
    undefined, [getToken()] is [null] after [setAuth(user, token)]. *)
Lemma isAuthenticated_false_with_empty_token :
  AuthJs.getToken (AuthJs.setAuth example_user [] example_browser) = Some []
  /\ AuthJs.getUser example_parse (AuthJs.setAuth example_user [] example_browser)
     = example_user
  /\ example_user <> JNull
  /\ AuthJs.isAuthenticated example_parse
       (AuthJs.setAuth example_user [] example_browser) = false
  /\ AuthJs.getToken (AuthJs.setAuth example_user (lit "token") example_server)
     = None.
Proof. by vm_compute. Qed.

Lemma auth_state_round_trip_witness :
  AuthJs.getUser example_parse
    (AuthJs.setAuth example_user (lit "token") example_browser) = example_user
  /\ AuthJs.getToken (AuthJs.setAuth example_user (lit "token") example_browser)
     = Some (lit "token").
Proof.
  destruct (auth_state_round_trip example_parse example_user (lit "token")
              example_browser eq_refl eq_refl) as (H1 & H2 & _).
  split; [exact H1 | exact H2].
Defined.

(** ** The client: [components/TodoForm.js] *)

Section FormFacts.

Variable onSubmit : TodoForm.Submission -> option (option text).

Let handleSubmit := TodoForm.handleSubmit onSubmit.




End FormFacts.


(** * Further properties of the code *)

(** ** Server: the dependency and the validation *)

Section MoreGateFacts.

Variable jwt_decode : text -> text -> list text -> payload + InvalidTokenError.
Variable BETTER_AUTH_SECRET : text.

Let get_current_user := Auth.get_current_user jwt_decode BETTER_AUTH_SECRET.
Let ownership_gate := Auth.ownership_gate jwt_decode BETTER_AUTH_SECRET.
Let decode token := jwt_decode token BETTER_AUTH_SECRET [lit "HS256"].

(** X1. [get_current_user] ends in one of two ways only: it returns the
    claims the library decoded from the second field of a bearer header, or
    it raises an [HTTPException] with status 401. The subscript
    [split(" ")[1]] is never out of range, so no [IndexError] escapes. *)
Theorem get_current_user_returns_or_401 authorization :
  (exists a token claims,
      authorization = Some a
      /\ Auth.bearer_token a = Some token
      /\ decode token = inl claims
      /\ get_current_user authorization = Return claims)
  \/ (exists detail,
        get_current_user authorization = Raise (HTTPException 401 detail)).
Proof.
  destruct (get_current_user_cases jwt_decode BETTER_AUTH_SECRET authorization)
    as [[H _] | [(a & t & e & _ & _ & _ & _ & H) | (a & t & c & -> & _ & Ht & Hd & H)]].
  - right. by eexists.
  - right. by eexists.
  - left. exists a, t, c. eauto.
Qed.

(** X2. For a valid credential whose claims carry ["id"], the gate compares
    that claim with the path identity as Python does: it lets the request
    through, returning the claims, exactly when the claim is the [str] of
    the path, and raises 403 otherwise; a claim that is not a [str] (an
    [int], a [bool], [None]) never matches. *)
Theorem gate_decides_on_id authorization token claims v user_id :
  startswith (lit "Bearer ") authorization = true ->
  Auth.bearer_token authorization = Some token ->
  decode token = inl claims ->
  claims !! lit "id" = Some v ->
  ownership_gate (Some authorization) user_id
  = (if bool_decide (v = PyStr user_id) then Return claims
     else Raise (HTTPException 403 (lit "Forbidden")))
  /\ (match v with
      | PyStr _ => True
      | _ => ownership_gate (Some authorization) user_id
             = Raise (HTTPException 403 (lit "Forbidden"))
      end).
Proof.
  intros Hp Ht Hd Hid. split.
  - case_bool_decide as Hv.
    + subst v. by eapply gate_allows_id.
    + by eapply gate_forbids_id.
  - destruct v; try done; by eapply gate_forbids_id.
Qed.

End MoreGateFacts.

Lemma gate_decides_on_id_witness :
  Auth.ownership_gate example_decode example_secret
    (Some (lit "Bearer user.u1")) (lit "u2")
  = Raise (HTTPException 403 (lit "Forbidden")).
Proof.
  refine (proj1 (gate_decides_on_id example_decode example_secret
                   (lit "Bearer user.u1") (lit "user.u1")
                   (<[lit "id" := PyStr (lit "u1")]>
                      (<[lit "email" := PyStr (lit "u1@example.com")]> ∅))
                   (PyStr (lit "u1")) (lit "u2") _ _ _ _));
    by vm_compute.
Defined.

(** ** Client and server: the bearer header *)

(** The second field of ["Bearer " ++ token] is the token up to its first
    space. *)
Lemma bearer_token_of_header token :
  32 ∉ token ->
  Auth.bearer_token (lit "Bearer " ++ token) = Some token.
Proof.
  intros Hs. unfold Auth.bearer_token.
  assert (split 32 token = [token]) as Hsplit.
  { induction token as [|c t IH]; [done|].
    apply not_elem_of_cons in Hs as [Hc Ht]. simpl.
    destruct (c =? 32) eqn:E; [apply N.eqb_eq in E; congruence|].
    by rewrite (IH Ht). }
  change (lit "Bearer " ++ token)
    with (66 :: 101 :: 97 :: 114 :: 101 :: 114 :: 32 :: token).
  simpl. by rewrite Hsplit.
Qed.

Lemma b64_char_not_space i : b64_char i <> 32.
Proof.
  unfold b64_char.
  assert (N.to_nat (N.land i 63) < 64)%nat as Hlt
    by (pose proof (land_63_lt i); lia).
  revert Hlt. generalize (N.to_nat (N.land i 63)). intros n Hn.
  do 64 (destruct n as [|n]; [by vm_compute|]). lia.
Qed.

Lemma b64_encode_no_space : forall bytes, 32 ∉ b64_encode bytes.
Proof.
  fix IH 1. intros [|a [|b [|c r]]]; simpl; rewrite ?not_elem_of_cons;
    repeat split;
    try apply not_elem_of_nil; try apply IH; try done;
    intros E; symmetry in E; by apply b64_char_not_space in E.
Qed.

Lemma b64_encode_nonempty bytes : bytes <> [] -> b64_encode bytes <> [].
Proof. by destruct bytes as [|a [|b [|c r]]]. Qed.

Section Transport.

Variable jwt_decode : text -> text -> list text -> payload + InvalidTokenError.
Variable BETTER_AUTH_SECRET : text.
Variable NEXT_PUBLIC_API_URL : option text.

Let get_current_user := Auth.get_current_user jwt_decode BETTER_AUTH_SECRET.
Let build_request := Api.build_request NEXT_PUBLIC_API_URL.
Let decode token := jwt_decode token BETTER_AUTH_SECRET [lit "HS256"].

(** The header [apiRequest] builds from a stored token. *)
Lemma stored_token_header endpoint options w token :
  window w = true ->
  localStorage w !! AuthJs.AUTH_TOKEN_KEY = Some token ->
  token <> [] ->
  headers (init (build_request endpoint options w)) !! lit "Authorization"
  = Some (lit "Bearer " ++ token).
Proof.
  intros Hw Hl Hne.
  unfold build_request, Api.build_request, Api.build_headers, AuthJs.getToken.
  simpl. rewrite Hw. simpl. rewrite Hl.
  destruct token as [|c t]; [done|]. apply lookup_insert_eq.
Qed.

(** What [get_current_user] makes of a bearer header. *)
Lemma bearer_header_read token :
  32 ∉ token ->
  get_current_user (Some (lit "Bearer " ++ token))
  = match decode token with
    | inl claims => Return claims
    | inr _ => Raise (HTTPException 401 (lit "Invalid token"))
    end.
Proof.
  intros Hs.
  assert (startswith (lit "Bearer ") (lit "Bearer " ++ token) = true) as Hp
    by (apply startswith_app; by eexists).
  pose proof (bearer_token_of_header token Hs) as Ht.
  destruct (decode token) as [claims|e] eqn:Hd.
  - by eapply get_current_user_valid.
  - by eapply get_current_user_invalid.
Qed.

(** X3. Client and server agree on the bearer header. When [localStorage]
    holds a non-empty token without a space, the request [apiRequest]
    builds carries [Authorization: Bearer <token>], whatever headers the
    caller passed, and [get_current_user] applied to that header hands
    exactly this token to [jwt.decode]: it returns the claims when the
    token decodes and raises 401 with detail ["Invalid token"] when it
    does not. *)
Theorem stored_token_reaches_decoder endpoint options w token :
  window w = true ->
  localStorage w !! AuthJs.AUTH_TOKEN_KEY = Some token ->
  token <> [] ->
  32 ∉ token ->
  headers (init (build_request endpoint options w)) !! lit "Authorization"
  = Some (lit "Bearer " ++ token)
  /\ get_current_user
       (headers (init (build_request endpoint options w)) !! lit "Authorization")
     = match decode token with
       | inl claims => Return claims
       | inr _ => Raise (HTTPException 401 (lit "Invalid token"))
       end.
Proof.
  intros Hw Hl Hne Hs.
  rewrite (stored_token_header endpoint options w token Hw Hl Hne).
  split; [done|]. by apply bearer_header_read.
Qed.

(** X4. The token [login] stores travels unchanged: for an email within
    Latin-1, in a browser, the token is not empty and has no space, the
    next request carries it as bearer token, and the server's
    [get_current_user] passes exactly this token to [jwt.decode]. *)
Theorem login_token_reaches_decoder random now_iat now_exp email password
    endpoint options w :
  latin1 email = true ->
  window w = true ->
  let w' := snd (AuthJs.login random now_iat now_exp email password w) in
  exists token,
    AuthJs.getToken w' = Some token
    /\ token <> []
    /\ (32 ∉ token)
    /\ headers (init (build_request endpoint options w')) !! lit "Authorization"
       = Some (lit "Bearer " ++ token)
    /\ get_current_user
         (headers (init (build_request endpoint options w')) !! lit "Authorization")
       = match decode token with
         | inl claims => Return claims
         | inr _ => Raise (HTTPException 401 (lit "Invalid token"))
         end.
Proof.
  intros He Hw w'.
  set (claims := AuthJs.mockClaims random email now_iat now_exp).
  assert (latin1 (JSON_stringify claims) = true) as Hl
    by (apply latin1_Latin1, mockClaims_Latin1, latin1_Latin1, He).
  set (token := b64_encode (JSON_stringify claims)).
  assert (w' = AuthJs.setAuth (AuthJs.mockUser random email) token w) as Hw'.
  { unfold w', AuthJs.login, btoa. fold claims. by rewrite Hl. }
  assert (window w' = true) as Hww.
  { rewrite Hw'. unfold AuthJs.setAuth. by rewrite Hw. }
  assert (localStorage w' !! AuthJs.AUTH_TOKEN_KEY = Some token) as Hls.
  { rewrite Hw'. unfold AuthJs.setAuth. rewrite Hw. simpl.
    apply lookup_insert_eq. }
  assert (token <> []) as Hne
    by apply b64_encode_nonempty, JSON_stringify_nonempty.
  assert (32 ∉ token) as Hsp by apply b64_encode_no_space.
  exists token. split.
  { unfold AuthJs.getToken. by rewrite Hww. }
  split; [done|]. split; [done|].
  rewrite (stored_token_header endpoint options w' token Hww Hls Hne).
  split; [done|]. by apply bearer_header_read.
Qed.

End Transport.

Lemma stored_token_reaches_decoder_witness :
  headers (init (Api.build_request None (lit "/api/u1/tasks") Api.no_options
                   example_signed_in)) !! lit "Authorization"
  = Some (lit "Bearer dG9rZW4=").
Proof.
  refine (proj1 (stored_token_reaches_decoder example_decode example_secret None
                   (lit "/api/u1/tasks") Api.no_options example_signed_in
                   (lit "dG9rZW4=") _ _ _ _)); try by vm_compute.
  apply (bool_decide_unpack _). by vm_compute.
Defined.

Lemma login_token_reaches_decoder_witness :
  exists token,
    AuthJs.getToken
      (snd (AuthJs.login example_random 1700000000123 1700000000123
              (lit "ada@example.com") (lit "pw") example_browser))
    = Some token
    /\ token <> [].
Proof.
  destruct (login_token_reaches_decoder example_decode example_secret None
              example_random 1700000000123 1700000000123
              (lit "ada@example.com") (lit "pw")
              (lit "/api/u1/tasks") Api.no_options example_browser
              eq_refl eq_refl) as (token & H1 & H2 & _).
  exists token. split; [exact H1 | exact H2].
Defined.

(** ** Client: requests *)

Section MoreApiFacts.

Variable JSON_parse : text -> option json.
Variable NEXT_PUBLIC_API_URL : option text.
Variable fetch : Request -> promise Response.

Let apiRequest := Api.apiRequest NEXT_PUBLIC_API_URL fetch.
Let build_request := Api.build_request NEXT_PUBLIC_API_URL.

(** X5. The headers of a request. [Content-Type] is [application/json]
    unless the caller passes its own; every other header of the caller is
    kept; and [Authorization] is decided by the stored token alone when
    there is one: a caller's own [Authorization] header is replaced by
    [Bearer <token>], and is kept only when no token (or an empty one) is
    stored. *)
Theorem request_headers options w k :
  Api.build_headers options w !! lit "Content-Type"
  = Some (default (lit "application/json") (headers options !! lit "Content-Type"))
  /\ (k <> lit "Authorization" -> k <> lit "Content-Type" ->
      Api.build_headers options w !! k = headers options !! k)
  /\ Api.build_headers options w !! lit "Authorization"
     = match AuthJs.getToken w with
       | Some (c :: t) => Some (lit "Bearer " ++ c :: t)
       | _ => headers options !! lit "Authorization"
       end.
Proof.
  assert (lit "Authorization" <> lit "Content-Type") as Hne by by vm_compute.
  assert (forall j, j <> lit "Authorization" ->
            Api.build_headers options w !! j
            = (headers options ∪ {[lit "Content-Type" := lit "application/json"]}) !! j)
    as Hother.
  { intros j Hj. unfold Api.build_headers.
    destruct (AuthJs.getToken w) as [[|c t]|]; try done.
    by rewrite lookup_insert_ne. }
  split; [|split].
  - rewrite Hother by done. rewrite lookup_union.
    rewrite lookup_singleton_eq.
    by destruct (headers options !! lit "Content-Type").
  - intros Hk1 Hk2. rewrite Hother by done. rewrite lookup_union.
    rewrite lookup_singleton_ne by done.
    by destruct (headers options !! k).
  - unfold Api.build_headers.
    destruct (AuthJs.getToken w) as [[|c t]|];
      rewrite ?lookup_insert_eq; try done;
      rewrite lookup_union, lookup_singleton_ne by done;
      by destruct (headers options !! lit "Authorization").
Qed.

(** X6. [apiRequest] prints to [console.error] exactly what it throws: a
    call that rejects adds one entry, the error it rejects with, and a
    call that resolves adds none. It never changes whether [window] is
    defined. *)
Theorem apiRequest_logs_what_it_throws endpoint options w :
  match fst (apiRequest endpoint options w) with
  | Rejected e =>
      console_error (snd (apiRequest endpoint options w)) = console_error w ++ [e]
  | Resolved _ =>
      console_error (snd (apiRequest endpoint options w)) = console_error w
  end
  /\ window (snd (apiRequest endpoint options w)) = window w.
Proof.
  unfold apiRequest, Api.apiRequest.
  destruct (fetch _) as [response|e]; [|done].
  assert (console_error (snd (Api.on_response response w)) = console_error w
          /\ window (snd (Api.on_response response w)) = window w) as [Hc Hw].
  { unfold Api.on_response.
    repeat match goal with
           | |- context [if ?b then _ else _] => destruct b eqn:?
           | |- context [match ?x with _ => _ end] => destruct x eqn:?
           end; done. }
  destruct (Api.on_response response w) as [[data|e] w1]; simpl in *;
    by rewrite ?Hc, ?Hw.
Qed.

(** X7. When [fetch] itself rejects (the network is down), [apiRequest]
    rejects with the same error after printing it, and leaves
    [localStorage] and the location as they were: only a 401 response
    signs the user out. *)
Theorem apiRequest_network_error endpoint options w e :
  fetch (build_request endpoint options w) = Rejected e ->
  fst (apiRequest endpoint options w) = Rejected e
  /\ localStorage (snd (apiRequest endpoint options w)) = localStorage w
  /\ location_href (snd (apiRequest endpoint options w)) = location_href w
  /\ console_error (snd (apiRequest endpoint options w)) = console_error w ++ [e].
Proof.
  intros Hf. unfold apiRequest, Api.apiRequest.
  fold build_request. by rewrite Hf.
Qed.

(** X8. A 401 response signs the user out of [lib/auth.js] as well: the
    keys [apiRequest] removes are the keys [getToken] and [getUser] read,
    so in a browser, after the call, [getToken()] and [getUser()] return
    [null], [isAuthenticated()] is false, the location is [/login], and
    the next request carries no bearer token of its own. *)
Theorem unauthorized_response_signs_out endpoint options w response :
  window w = true ->
  fetch (build_request endpoint options w) = Resolved response ->
  status response = 401%Z ->
  let w' := snd (apiRequest endpoint options w) in
  AuthJs.getToken w' = None
  /\ AuthJs.getUser JSON_parse w' = JNull
  /\ AuthJs.isAuthenticated JSON_parse w' = false
  /\ location_href w' = Some (lit "/login")
  /\ (forall endpoint' options',
        headers (init (build_request endpoint' options' w')) !! lit "Authorization"
        = headers options' !! lit "Authorization").
Proof.
  intros Hw Hf Hs w'.
  assert (window w' = true /\
          localStorage w'
          = delete (lit "auth_user") (delete (lit "auth_token") (localStorage w))
          /\ location_href w' = Some (lit "/login")) as (Hww & Hls & Hloc).
  { unfold w', apiRequest, Api.apiRequest. fold build_request. rewrite Hf.
    unfold Api.on_response. rewrite Hs. simpl. by rewrite Hw. }
  assert (AuthJs.getToken w' = None) as Htok.
  { unfold AuthJs.getToken. rewrite Hww, Hls. simpl.
    change AuthJs.AUTH_TOKEN_KEY with (lit "auth_token").
    rewrite lookup_delete_ne by by vm_compute. apply lookup_delete_eq. }
  assert (AuthJs.getUser JSON_parse w' = JNull) as Hus.
  { unfold AuthJs.getUser. rewrite Hww, Hls. simpl.
    change AuthJs.AUTH_USER_KEY with (lit "auth_user").
    by rewrite lookup_delete_eq. }
  split; [done|]. split; [done|]. split.
  { unfold AuthJs.isAuthenticated. by rewrite Htok. }
  split; [done|]. intros endpoint' options'.
  unfold build_request, Api.build_request. simpl.
  unfold Api.build_headers. rewrite Htok.
  rewrite lookup_union, lookup_singleton_ne by by vm_compute.
  by destruct (headers options' !! lit "Authorization").
Qed.

End MoreApiFacts.

Lemma apiRequest_network_error_witness :
  fst (Api.apiRequest None example_offline (lit "/api/u1/tasks") Api.no_options
         example_signed_in)
  = Rejected TypeError
  /\ localStorage
       (snd (Api.apiRequest None example_offline (lit "/api/u1/tasks")
               Api.no_options example_signed_in))
     = localStorage example_signed_in.
Proof.
  destruct (apiRequest_network_error None example_offline
              (lit "/api/u1/tasks") Api.no_options example_signed_in
              TypeError eq_refl) as (H1 & H2 & _).
  split; [exact H1 | exact H2].
Defined.

Lemma unauthorized_response_signs_out_witness :
  AuthJs.isAuthenticated example_parse example_signed_in = true
  /\ AuthJs.isAuthenticated example_parse
       (snd (Api.apiRequest None
               (example_fetch {| status := 401; json_body := None |})
               (lit "/api/u1/tasks") Api.no_options example_signed_in))
     = false.
Proof.
  split; [by vm_compute|].
  destruct (unauthorized_response_signs_out example_parse None
              (example_fetch {| status := 401; json_body := None |})
              (lit "/api/u1/tasks") Api.no_options example_signed_in
              {| status := 401; json_body := None |} eq_refl eq_refl eq_refl)
    as (_ & _ & H & _).
  exact H.
Defined.

(** ** Client: the stored session *)

Lemma digit36_alphanumeric d :
  (48 <= digit36 d <= 57) \/ (97 <= digit36 d <= 122).
Proof.
  unfold digit36, hex_digit.
  assert (d mod 36 < 36) as H by by apply N.mod_upper_bound.
  revert H. generalize (d mod 36). intros x Hx.
  destruct (x <? 10) eqn:E;
    [apply N.ltb_lt in E; left | apply N.ltb_ge in E; right]; lia.
Qed.

Section SessionFacts.

Variable JSON_parse : text -> option json.

Let getUser := AuthJs.getUser JSON_parse.
Let isAuthenticated := AuthJs.isAuthenticated JSON_parse.

Lemma logout_storage w :
  localStorage (AuthJs.logout w) = localStorage (AuthJs.clearAuth w)
  /\ window (AuthJs.logout w) = window (AuthJs.clearAuth w).
Proof.
  unfold AuthJs.logout. by destruct (window (AuthJs.clearAuth w)) eqn:E.
Qed.

Lemma logout_cleared w :
  AuthJs.getToken (AuthJs.logout w) = None
  /\ getUser (AuthJs.logout w) = JNull.
Proof.
  destruct (logout_storage w) as [Hls Hww].
  destruct (cleared JSON_parse w) as [Hus0 Htok0].
  unfold getUser, AuthJs.getUser, AuthJs.getToken in *.
  by rewrite Hww, Hls.
Qed.

(** X9. [logout()] always ends the session: in every context
    [isAuthenticated()] is false afterwards and [getToken()] and
    [getUser()] return [null]; in a browser the location becomes [/], on
    the server nothing at all changes; and every other key of
    [localStorage] keeps its value. *)
Theorem logout_ends_session w k :
  isAuthenticated (AuthJs.logout w) = false
  /\ AuthJs.getToken (AuthJs.logout w) = None
  /\ getUser (AuthJs.logout w) = JNull
  /\ (if window w then location_href (AuthJs.logout w) = Some (lit "/")
      else AuthJs.logout w = w)
  /\ (k <> AuthJs.AUTH_TOKEN_KEY -> k <> AuthJs.AUTH_USER_KEY ->
      localStorage (AuthJs.logout w) !! k = localStorage w !! k).
Proof.
  destruct (logout_storage w) as [Hls Hww].
  destruct (logout_cleared w) as [Htok Hus].
  split; [|split; [done|split; [done|split]]].
  - unfold isAuthenticated, AuthJs.isAuthenticated. by rewrite Htok.
  - unfold AuthJs.logout, AuthJs.clearAuth.
    destruct (window w) eqn:Hw; simpl; by rewrite ?Hw.
  - intros Hk1 Hk2. rewrite Hls. unfold AuthJs.clearAuth.
    destruct (window w) eqn:Hw; simpl; [|done].
    by rewrite !lookup_delete_ne by congruence.
Qed.

(** X10. [setAuth] replaces a session, it does not merge: storing a second
    user and token over a first gives the same state as storing the second
    alone, and no key other than ['auth_token'] and ['auth_user'] is
    written. *)
Theorem setAuth_overwrites user1 token1 user2 token2 w k :
  AuthJs.setAuth user2 token2 (AuthJs.setAuth user1 token1 w)
  = AuthJs.setAuth user2 token2 w
  /\ (k <> AuthJs.AUTH_TOKEN_KEY -> k <> AuthJs.AUTH_USER_KEY ->
      localStorage (AuthJs.setAuth user1 token1 w) !! k = localStorage w !! k)
  /\ location_href (AuthJs.setAuth user1 token1 w) = location_href w.
Proof.
  unfold AuthJs.setAuth.
  destruct (window w) eqn:Hw; simpl; rewrite ?Hw; simpl; [|done].
  split; [|split; [|done]].
  - unfold with_localStorage. simpl. f_equal.
    apply map_eq. intros j.
    rewrite !lookup_insert. repeat case_decide; try done; congruence.
  - intros Hk1 Hk2. by rewrite !lookup_insert_ne by congruence.
Qed.

(** X11. After a [login] that resolves in a browser the session is open:
    for an email within Latin-1, when [JSON.parse] reads back the user
    [JSON.stringify] wrote, [isAuthenticated()] is true and [getUser()] is
    the user [login] returned; a [logout()] after it closes the session
    again. *)
Theorem login_opens_session random now_iat now_exp email password w :
  latin1 email = true ->
  window w = true ->
  JSON_parse (JSON_stringify (AuthJs.mockUser random email))
  = Some (AuthJs.mockUser random email) ->
  let r := AuthJs.login random now_iat now_exp email password w in
  fst r = Resolved (AuthJs.mockUser random email)
  /\ getUser (snd r) = AuthJs.mockUser random email
  /\ isAuthenticated (snd r) = true
  /\ isAuthenticated (AuthJs.logout (snd r)) = false.
Proof.
  intros He Hw Hp r.
  set (claims := AuthJs.mockClaims random email now_iat now_exp).
  assert (latin1 (JSON_stringify claims) = true) as Hl
    by (apply latin1_Latin1, mockClaims_Latin1, latin1_Latin1, He).
  assert (r = (Resolved (AuthJs.mockUser random email),
               AuthJs.setAuth (AuthJs.mockUser random email)
                 (b64_encode (JSON_stringify claims)) w)) as Hr.
  { unfold r, AuthJs.login, btoa. fold claims. by rewrite Hl. }
  rewrite Hr. cbn [fst snd]. split; [done|].
  assert (getUser (AuthJs.setAuth (AuthJs.mockUser random email)
                     (b64_encode (JSON_stringify claims)) w)
          = AuthJs.mockUser random email) as Hu
    by by apply getUser_setAuth.
  split; [done|]. split.
  - unfold isAuthenticated, AuthJs.isAuthenticated. fold getUser.
    rewrite Hu, getToken_setAuth by done.
    pose proof (b64_encode_nonempty _ (JSON_stringify_nonempty claims)) as Hne.
    by destruct (b64_encode (JSON_stringify claims)).
  - unfold isAuthenticated, AuthJs.isAuthenticated.
    by rewrite (proj1 (logout_cleared _)).
Qed.

End SessionFacts.

(** X12. The identifier [login] gives a user is ['demo-user-'] followed by
    at most nine characters, each a digit or a lower-case letter: exactly
    nine when the random fraction has nine base-36 digits or more, and none
    when [Math.random()] returns 0. It does not depend on the email. *)
Theorem mockUser_id_shape random :
  exists suffix,
    AuthJs.mockUser_id random = lit "demo-user-" ++ suffix
    /\ length suffix = Nat.min 9 (length random)
    /\ Forall (fun c => (48 <= c <= 57) \/ (97 <= c <= 122)) suffix.
Proof.
  exists (substr 2 9 (toString36 random)). split; [done|].
  unfold substr, toString36. destruct random as [|d r]; [by split|].
  change (lit "0." ++ List.map digit36 (d :: r))
    with (48 :: 46 :: List.map digit36 (d :: r)).
  change (drop 2 (48 :: 46 :: List.map digit36 (d :: r)))
    with (List.map digit36 (d :: r)).
  split.
  - rewrite length_take, length_map. lia.
  - apply Forall_take, Forall_forall. intros c Hc.
    apply in_map_iff in Hc as (x & <- & _). apply digit36_alphanumeric.
Qed.

Lemma login_opens_session_witness :
  AuthJs.isAuthenticated example_parse
    (snd (AuthJs.login example_random 1700000000123 1700000000123
            (lit "ada@example.com") (lit "pw") example_browser))
  = true.
Proof.
  destruct (login_opens_session example_parse example_random
              1700000000123 1700000000123 (lit "ada@example.com") (lit "pw")
              example_browser eq_refl eq_refl eq_refl) as (_ & _ & H & _).
  exact H.
Defined.

(** ** Client: the query of the task list *)

Lemma pair_in_singleton (k k' x y : text) :
  (k, x) ∈ [(k', y)] <-> k = k' /\ x = y.
Proof.
  rewrite list_elem_of_singleton. split.
  - by intros [= -> ->].
  - by intros [-> ->].
Qed.

(** One optional parameter of the query. *)
Lemma optional_parameter (name k v : text) (filter : option text) :
  (k, v) ∈ (if truthy_text filter then [(name, default [] filter)] else [])
  <-> k = name /\ filter = Some v /\ v <> [].
Proof.
  destruct filter as [[|c t]|]; simpl.
  - rewrite elem_of_nil. split; [done|]. by intros (_ & [= <-] & ?).
  - rewrite pair_in_singleton. split.
    + by intros [-> ->].
    + by intros (-> & [= <-] & _).
  - rewrite elem_of_nil. split; [done|]. by intros (_ & ? & _).
Qed.

Lemma completed_parameter (k v : text) (filter : option text) :
  (k, v) ∈ match filter with
           | Some c => if bool_decide (c = lit "all") then [] else [(lit "completed", c)]
           | None => []
           end
  <-> k = lit "completed" /\ filter = Some v /\ v <> lit "all".
Proof.
  destruct filter as [c|]; [case_bool_decide as Hc|].
  - rewrite elem_of_nil. split; [done|]. intros (_ & [= <-] & ?). done.
  - rewrite pair_in_singleton. split.
    + by intros [-> ->].
    + by intros (-> & [= <-] & _).
  - rewrite elem_of_nil. split; [done|]. by intros (_ & ? & _).
Qed.

Lemma optional_sublist (name : text) (filter : option text) :
  sublist (List.map fst (if truthy_text filter
                         then [(name, default [] filter)] else []))
          [name].
Proof.
  destruct filter as [[|c t]|]; simpl;
    first [by apply sublist_cons, sublist_nil
          | by apply sublist_skip, sublist_nil].
Qed.

(** X13. The parameters [tasksAPI.list] appends: each of [completed],
    [search], [sort] and [order] at most once and in that order;
    [completed] exactly when the filter is defined and is not ['all'] (an
    empty string is sent as it is); each of the other three exactly when
    the filter is a non-empty string. *)
Theorem list_query_parameters filters v :
  sublist (List.map fst (Api.list_params filters))
          [lit "completed"; lit "search"; lit "sort"; lit "order"]
  /\ ((lit "completed", v) ∈ Api.list_params filters
      <-> f_completed filters = Some v /\ v <> lit "all")
  /\ ((lit "search", v) ∈ Api.list_params filters
      <-> f_search filters = Some v /\ v <> [])
  /\ ((lit "sort", v) ∈ Api.list_params filters
      <-> f_sort filters = Some v /\ v <> [])
  /\ ((lit "order", v) ∈ Api.list_params filters
      <-> f_order filters = Some v /\ v <> []).
Proof.
  assert (lit "completed" <> lit "search" /\ lit "completed" <> lit "sort"
          /\ lit "completed" <> lit "order" /\ lit "search" <> lit "sort"
          /\ lit "search" <> lit "order" /\ lit "sort" <> lit "order")
    as (N1 & N2 & N3 & N4 & N5 & N6) by (repeat split; by vm_compute).
  assert (forall k,
             (k, v) ∈ Api.list_params filters
             <-> (k = lit "completed" /\ f_completed filters = Some v /\ v <> lit "all")
                 \/ (k = lit "search" /\ f_search filters = Some v /\ v <> [])
                 \/ (k = lit "sort" /\ f_sort filters = Some v /\ v <> [])
                 \/ (k = lit "order" /\ f_order filters = Some v /\ v <> []))
    as Hin.
  { intros k. unfold Api.list_params.
    by rewrite !elem_of_app, completed_parameter, !optional_parameter. }
  split.
  - unfold Api.list_params. rewrite !map_app.
    change [lit "completed"; lit "search"; lit "sort"; lit "order"]
      with ([lit "completed"] ++ [lit "search"] ++ [lit "sort"] ++ [lit "order"]).
    repeat apply sublist_app; try apply optional_sublist.
    destruct (f_completed filters) as [c|]; [case_bool_decide|]; simpl;
      first [by apply sublist_cons, sublist_nil
            | by apply sublist_skip, sublist_nil].
  - rewrite !Hin. repeat split; intros;
      repeat match goal with
             | H : _ \/ _ |- _ => destruct H
             | H : _ /\ _ |- _ => destruct H
             end; try congruence; auto 10.
Qed.

(** ** Client: the form *)

Lemma trim_start_nil_iff s :
  trim_start s = [] <-> forallb is_white_space s = true.
Proof.
  induction s as [|c s IH]; simpl; [done|].
  destruct (is_white_space c); simpl; [done|]. split; discriminate.
Qed.

Lemma trim_start_head s c r :
  trim_start s = c :: r -> is_white_space c = false.
Proof.
  induction s as [|d s IH]; simpl; [done|].
  destruct (is_white_space d) eqn:E; [done|]. by intros [= <- <-].
Qed.

Lemma forallb_reverse {A} (f : A -> bool) l :
  forallb f (reverse l) = forallb f l.
Proof.
  induction l as [|x l IH]; [done|].
  rewrite reverse_cons, forallb_app. simpl. rewrite IH.
  by destruct (f x), (forallb f l).
Qed.

(** [title.trim()] is empty exactly when every character of the title is
    white space. *)
Lemma trim_nil_iff s :
  trim s = [] <-> forallb is_white_space s = true.
Proof.
  unfold trim. split.
  - intros H. apply (f_equal reverse) in H. rewrite reverse_involutive in H.
    change (reverse []) with (@nil N) in H.
    apply trim_start_nil_iff in H. rewrite forallb_reverse in H.
    destruct (trim_start s) as [|c r] eqn:E; [by apply trim_start_nil_iff|].
    apply trim_start_head in E. simpl in H. by rewrite E in H.
  - intros H. apply trim_start_nil_iff in H. by rewrite H.
Qed.

Section MoreFormFacts.

Variable onSubmit : TodoForm.Submission -> option (option text).

Let handleSubmit := TodoForm.handleSubmit onSubmit.

(** X14. What [handleSubmit] does, in terms of what was typed. When every
    character of the title is white space (or there is none), [onSubmit]
    is not called and the error is ['Title is required']. Otherwise
    [onSubmit] is called exactly once, with the title and the description
    as typed, untrimmed; the error becomes empty when it resolves, whatever
    error was shown before, the message of the rejection when it has a
    non-empty one, and ['Failed to save task'] otherwise. The title and
    the description of the form are never changed. *)
Theorem handleSubmit_behaviour st :
  let data := {| TodoForm.s_title := TodoForm.title st;
                 TodoForm.s_description := TodoForm.description st |} in
  snd (handleSubmit st)
  = (if forallb is_white_space (TodoForm.title st) then [] else [data])
  /\ TodoForm.error (fst (handleSubmit st))
     = (if forallb is_white_space (TodoForm.title st)
        then lit "Title is required"
        else match onSubmit data with
             | None => []
             | Some (Some (c :: m)) => c :: m
             | Some _ => lit "Failed to save task"
             end)
  /\ TodoForm.title (fst (handleSubmit st)) = TodoForm.title st
  /\ TodoForm.description (fst (handleSubmit st)) = TodoForm.description st.
Proof.
  intros data. unfold handleSubmit, TodoForm.handleSubmit.
  change (TodoForm.title (TodoForm.setError (lit "") st)) with (TodoForm.title st).
  change (TodoForm.description (TodoForm.setError (lit "") st))
    with (TodoForm.description st).
  pose proof (trim_nil_iff (TodoForm.title st)) as Ht.
  destruct (forallb is_white_space (TodoForm.title st)) eqn:E.
  - assert (trim (TodoForm.title st) = []) as -> by by apply Ht.
    repeat split; reflexivity.
  - destruct (trim (TodoForm.title st)) as [|c r] eqn:E2.
    { by pose proof (proj1 Ht eq_refl). }
    fold data. destruct (onSubmit data) as [[[|c' m]|]|];
      repeat split; reflexivity.
Qed.

(** X15. The form and the request schema disagree on blank titles. A title
    of 1 to 255 characters that are all white space passes the validation
    of [TaskCreate], which does not trim, while the form refuses to submit
    it. *)
Theorem blank_title_passes_schema st :
  forallb is_white_space (TodoForm.title st) = true ->
  (1 <= length (TodoForm.title st) <= 255)%nat ->
  snd (handleSubmit st) = []
  /\ validate_TaskCreate (Some (TodoForm.title st)) None
     = Some {| Models.tc_title := TodoForm.title st;
               Models.tc_description := None |}.
Proof.
  intros Hws Hlen. split.
  - unfold handleSubmit, TodoForm.handleSubmit.
    change (TodoForm.title (TodoForm.setError (lit "") st)) with (TodoForm.title st).
    by rewrite (proj2 (trim_nil_iff _) Hws).
  - unfold validate_TaskCreate.
    rewrite (proj2 (Nat.ltb_ge _ _)) by lia.
    by rewrite (proj2 (Nat.ltb_ge _ _)) by lia.
Qed.

End MoreFormFacts.

Lemma blank_title_passes_schema_witness :
  validate_TaskCreate (Some (lit "   ")) None
  = Some {| Models.tc_title := lit "   "; Models.tc_description := None |}.
Proof.
  refine (proj2 (blank_title_passes_schema (fun _ => None)
                   {| TodoForm.title := lit "   "; TodoForm.description := [];
                      TodoForm.error := [] |} eq_refl _)).
  vm_compute. lia.
Defined.

(** ** Server: the operations on the tasks table *)

Lemma head_filter_first {A} (P : A -> bool) (l : list A) (x : A) :
  x ∈ l -> P x = true ->
  (forall y, y ∈ l -> P y = true -> y = x) ->
  head (List.filter P l) = Some x.
Proof.
  induction l as [|y l IH]; intros Hin HP Huniq; [by apply elem_of_nil in Hin|].
  simpl. destruct (P y) eqn:Hy.
  - simpl. f_equal. apply Huniq; [by left | done].
  - apply IH; [|done|].
    + apply elem_of_cons in Hin as [->|Hin]; [congruence | done].
    + intros z Hz. apply Huniq. by right.
Qed.

Lemma head_filter_None {A} (P : A -> bool) (l : list A) :
  (forall y, y ∈ l -> P y = false) -> head (List.filter P l) = None.
Proof.
  induction l as [|y l IH]; intros H; [done|]. simpl.
  rewrite (H y) by by left. apply IH. intros z Hz. apply H. by right.
Qed.

Lemma replace_row_ids t rs :
  List.map Models.id (Crud.replace_row t rs) = List.map Models.id rs.
Proof.
  unfold Crud.replace_row. rewrite map_map. apply map_ext. intros r.
  unfold Crud.same_id. case_bool_decide; congruence.
Qed.

Lemma replace_row_elem t rs r :
  r ∈ Crud.replace_row t rs
  <-> (exists r0, r0 ∈ rs /\ Models.id r0 = Models.id t /\ r = t)
      \/ (r ∈ rs /\ Models.id r <> Models.id t).
Proof.
  unfold Crud.replace_row.
  rewrite list_elem_of_In, in_map_iff. unfold Crud.same_id. split.
  - intros (r0 & Hr & Hin). apply list_elem_of_In in Hin.
    case_bool_decide as Hid; subst; [left; eauto | right; eauto].
  - intros [(r0 & Hin & Hid & ->) | [Hin Hid]].
    + exists r0. rewrite bool_decide_true by done.
      split; [done | by apply list_elem_of_In].
    + exists r. rewrite bool_decide_false by done.
      split; [done | by apply list_elem_of_In].
Qed.

Lemma NoDup_filter_ids (P : Models.Task -> bool) rs :
  NoDup (List.map Models.id rs) ->
  NoDup (List.map Models.id (List.filter P rs)).
Proof.
  induction rs as [|r rs IH]; intros Hnd; [done|]. simpl in *.
  inversion Hnd as [|? ? Hnotin Hnd']; subst.
  destruct (P r); [|by apply IH]. simpl. constructor; [|by apply IH].
  intros Hin. apply Hnotin.
  apply list_elem_of_In, in_map_iff in Hin as (y & Hy & Hyin).
  apply filter_In in Hyin as [Hyin _].
  apply list_elem_of_In, in_map_iff. eauto.
Qed.

Section MoreCrudFacts.

Variable session : Session.
Hypothesis primary_key_holds : NoDup (List.map Models.id (rows session)).

(** X16. Every operation keeps the primary key: after [create_task] with
    an identifier no row has yet, and after [update_task],
    [toggle_completion] and [delete_task] on any task, no two rows share an
    [id]; [list_tasks] and [get_task] leave the rows as they are. *)
Theorem operations_keep_primary_key uuid4 utcnow1 utcnow2 user_id task_id
    task_data task completed :
  (uuid4 ∉ List.map Models.id (rows session) ->
   NoDup (List.map Models.id
            (rows (snd (Crud.create_task uuid4 utcnow1 utcnow2 user_id
                          task_data session)))))
  /\ NoDup (List.map Models.id
              (rows (snd (Crud.update_task utcnow1 task task_data session))))
  /\ NoDup (List.map Models.id
              (rows (snd (Crud.toggle_completion utcnow1 task completed session))))
  /\ NoDup (List.map Models.id (rows (Crud.delete_task task session)))
  /\ rows (snd (Crud.list_tasks user_id session)) = rows session
  /\ rows (snd (Crud.get_task user_id task_id session)) = rows session.
Proof.
  repeat split; try done.
  - intros Hfresh. simpl. rewrite map_app. simpl.
    apply list.NoDup_app. split; [done|]. split.
    + intros x Hx ->%list_elem_of_singleton. done.
    + apply NoDup_singleton.
  - simpl. by rewrite replace_row_ids.
  - simpl. by rewrite replace_row_ids.
  - simpl. by apply NoDup_filter_ids.
Qed.

(** X17. A task is found again after it is created: [create_task] with an
    identifier no row has yet stores a task of the given owner, not
    completed, with the title and description of the request; [get_task]
    by that owner and identifier returns it, [get_task] by any other owner
    finds nothing; the owner's list holds the new task and otherwise the
    tasks it held before, and every other owner's list holds the tasks it
    held before. The lists are compared as collections: the [select] has
    no [ORDER BY], so the code fixes no order. *)
Theorem create_then_get uuid4 utcnow1 utcnow2 user_id task_data other :
  uuid4 ∉ List.map Models.id (rows session) ->
  other <> user_id ->
  let created := Crud.create_task uuid4 utcnow1 utcnow2 user_id task_data session in
  Models.id (fst created) = uuid4
  /\ Models.user_id (fst created) = user_id
  /\ Models.completed (fst created) = false
  /\ Models.title (fst created) = Models.tc_title task_data
  /\ Models.description (fst created) = Models.tc_description task_data
  /\ fst (Crud.get_task user_id uuid4 (snd created)) = Some (fst created)
  /\ fst (Crud.get_task other uuid4 (snd created)) = None
  /\ fst (Crud.list_tasks user_id (snd created))
     ≡ₚ fst created :: fst (Crud.list_tasks user_id session)
  /\ fst (Crud.list_tasks other (snd created))
     ≡ₚ fst (Crud.list_tasks other session).
Proof.
  intros Hfresh Hother created.
  assert (forall r, r ∈ rows session -> Models.id r <> uuid4) as Hrows.
  { intros r Hr E. apply Hfresh. rewrite <- E.
    apply list_elem_of_In, in_map, list_elem_of_In, Hr. }
  repeat split; try done.
  - unfold Crud.get_task. simpl.
    apply head_filter_first.
    + apply elem_of_app. right. by left.
    + unfold Crud.same_id, Crud.owned_by. simpl. by rewrite !bool_decide_true.
    + intros y [Hy|Hy%list_elem_of_singleton]%elem_of_app Hp; [|done].
      apply andb_true_iff in Hp as [Hp _].
      apply bool_decide_eq_true in Hp. by apply Hrows in Hy.
  - unfold Crud.get_task. simpl. apply head_filter_None.
    intros y [Hy|Hy%list_elem_of_singleton]%elem_of_app.
    + apply andb_false_iff. left. apply bool_decide_eq_false.
      by apply Hrows.
    + subst y. apply andb_false_iff. right. apply bool_decide_eq_false.
      simpl. congruence.
  - unfold Crud.list_tasks. simpl. rewrite filter_app. simpl.
    unfold Crud.owned_by at 2. simpl. rewrite bool_decide_true by done.
    symmetry. apply Permutation_cons_append.
  - unfold Crud.list_tasks. simpl. rewrite filter_app. simpl.
    unfold Crud.owned_by at 2. simpl. rewrite bool_decide_false by congruence.
    by rewrite app_nil_r.
Qed.

(** X18. A deleted task is gone for everyone: after [delete_task(task)]
    no [get_task] finds its identifier, whatever the owner asked for; the
    table has exactly one row less; and every row with another identifier
    is still there. *)
Theorem delete_then_get task user_id :
  task ∈ rows session ->
  fst (Crud.get_task user_id (Models.id task) (Crud.delete_task task session))
  = None
  /\ S (length (rows (Crud.delete_task task session))) = length (rows session)
  /\ (forall r, r ∈ rows session -> Models.id r <> Models.id task ->
                r ∈ rows (Crud.delete_task task session)).
Proof.
  intros Hin. split; [|split].
  - unfold Crud.get_task, Crud.delete_task. simpl. apply head_filter_None.
    intros y Hy. apply list_elem_of_In, filter_In in Hy as [_ Hy].
    apply negb_true_iff in Hy. unfold Crud.same_id in *.
    by rewrite Hy.
  - unfold Crud.delete_task. simpl.
    revert primary_key_holds Hin. generalize (rows session). intros rs.
    induction rs as [|r rs IH]; intros Hnd Hin0; [by apply elem_of_nil in Hin0|].
    simpl in *. inversion Hnd as [|? ? Hnotin Hnd']; subst.
    unfold Crud.same_id at 1. case_bool_decide as Hid; simpl.
    + f_equal.
      assert (List.filter (fun r0 => negb (Crud.same_id (Models.id task) r0)) rs = rs)
        as ->; [|done].
      apply forallb_filter_id, forallb_forall. intros y Hy.
      apply negb_true_iff, bool_decide_eq_false. intros E. apply Hnotin.
      rewrite Hid, <- E. by apply list_elem_of_In, in_map.
    + f_equal. apply IH; [done|].
      apply elem_of_cons in Hin0 as [->|?]; [done | done].
  - intros r Hr Hid. unfold Crud.delete_task. simpl.
    apply list_elem_of_In, filter_In. split; [by apply list_elem_of_In|].
    apply negb_true_iff, bool_decide_eq_false. done.
Qed.

(** X19. [update_task] rewrites one row: the stored task keeps its [id],
    owner, completion flag and creation time, takes the title and the
    description of the request and the new [updated_at]; [get_task] by the
    owner returns the updated task; the number of rows is unchanged and
    every row with another identifier is untouched. *)
Theorem update_then_get utcnow task task_data :
  task ∈ rows session ->
  let updated := Crud.update_task utcnow task task_data session in
  Models.id (fst updated) = Models.id task
  /\ Models.user_id (fst updated) = Models.user_id task
  /\ Models.completed (fst updated) = Models.completed task
  /\ Models.created_at (fst updated) = Models.created_at task
  /\ Models.title (fst updated) = Models.tc_title task_data
  /\ Models.description (fst updated) = Models.tc_description task_data
  /\ Models.updated_at (fst updated) = utcnow
  /\ fst (Crud.get_task (Models.user_id task) (Models.id task) (snd updated))
     = Some (fst updated)
  /\ length (rows (snd updated)) = length (rows session)
  /\ (forall r, Models.id r <> Models.id task ->
                r ∈ rows (snd updated) <-> r ∈ rows session).
Proof.
  intros Hin updated. repeat split; try done.
  - unfold Crud.get_task. simpl. apply head_filter_first.
    + apply replace_row_elem. left. eauto.
    + unfold Crud.same_id, Crud.owned_by. simpl. by rewrite !bool_decide_true.
    + intros y Hy Hp. apply andb_true_iff in Hp as [Hp _].
      apply bool_decide_eq_true in Hp.
      apply replace_row_elem in Hy as [(r0 & _ & _ & ->) | [_ Hne]]; [done|].
      simpl in Hne. congruence.
  - simpl. unfold Crud.replace_row. apply length_map.
  - simpl. intros Hr%replace_row_elem.
    destruct Hr as [(r0 & _ & _ & ->) | [Hr _]]; [by simpl in *|done].
  - simpl. intros Hr. apply replace_row_elem. right. by split.
Qed.

(** X20. [toggle_completion] sets the flag it is given, whatever the flag
    was; the stored task keeps its [id], owner, title, description and
    creation time; [get_task] by the owner returns the changed task, and
    every row with another identifier is untouched. *)
Theorem toggle_then_get utcnow task completed :
  task ∈ rows session ->
  let toggled := Crud.toggle_completion utcnow task completed session in
  Models.completed (fst toggled) = completed
  /\ Models.id (fst toggled) = Models.id task
  /\ Models.user_id (fst toggled) = Models.user_id task
  /\ Models.title (fst toggled) = Models.title task
  /\ Models.description (fst toggled) = Models.description task
  /\ Models.created_at (fst toggled) = Models.created_at task
  /\ Models.updated_at (fst toggled) = utcnow
  /\ fst (Crud.get_task (Models.user_id task) (Models.id task) (snd toggled))
     = Some (fst toggled)
  /\ (forall r, Models.id r <> Models.id task ->
                r ∈ rows (snd toggled) <-> r ∈ rows session).
Proof.
  intros Hin toggled. repeat split; try done.
  - unfold Crud.get_task. simpl. apply head_filter_first.
    + apply replace_row_elem. left. eauto.
    + unfold Crud.same_id, Crud.owned_by. simpl. by rewrite !bool_decide_true.
    + intros y Hy Hp. apply andb_true_iff in Hp as [Hp _].
      apply bool_decide_eq_true in Hp.
      apply replace_row_elem in Hy as [(r0 & _ & _ & ->) | [_ Hne]]; [done|].
      simpl in Hne. congruence.
  - simpl. intros Hr%replace_row_elem.
    destruct Hr as [(r0 & _ & _ & ->) | [Hr _]]; [by simpl in *|done].
  - simpl. intros Hr. apply replace_row_elem. right. by split.
Qed.

End MoreCrudFacts.

(** The rows [filter] keeps do not depend on the order of the list. *)
Lemma filter_Permutation {A} (P : A -> bool) (l l' : list A) :
  l ≡ₚ l' -> List.filter P l ≡ₚ List.filter P l'.
Proof.
  induction 1 as [|x l l' _ IH|x y l|l l' l'' _ IH1 _ IH2]; simpl.
  - done.
  - destruct (P x); [by constructor | done].
  - destruct (P x), (P y); try done. apply perm_swap.
  - by etrans.
Qed.

(** X21. [list_tasks] returns exactly the rows of the owner it is given
    and nothing else: a task is in the list of its owner and in no other
    owner's list; and which tasks it returns, and how often, does not
    depend on the order in which the table holds its rows. *)
Theorem lists_partition_rows session user_id other t :
  (t ∈ fst (Crud.list_tasks user_id session)
   <-> t ∈ rows session /\ Models.user_id t = user_id)
  /\ (forall session',
        rows session ≡ₚ rows session' ->
        fst (Crud.list_tasks user_id session)
        ≡ₚ fst (Crud.list_tasks user_id session'))
  /\ (t ∈ fst (Crud.list_tasks user_id session) -> other <> user_id ->
      t ∉ fst (Crud.list_tasks other session)).
Proof.
  assert (forall u, t ∈ fst (Crud.list_tasks u session)
                    <-> t ∈ rows session /\ Models.user_id t = u) as Hin.
  { intros u. unfold Crud.list_tasks, Crud.owned_by. simpl. split.
    - intros H. apply list_elem_of_In, filter_In in H as [H1 H2].
      split; [by apply list_elem_of_In | by apply bool_decide_eq_true in H2].
    - intros [H1 H2]. apply list_elem_of_In, filter_In.
      split; [by apply list_elem_of_In | by apply bool_decide_eq_true]. }
  split; [apply Hin|]. split.
  - intros session' Hperm. unfold Crud.list_tasks. simpl.
    by apply filter_Permutation.
  - intros [_ H1]%Hin Hne [_ H2]%Hin. congruence.
Qed.

Lemma example_uuid4_fresh :
  uuid4 example_defaults ∉ List.map Models.id (rows example_session).
Proof. apply (bool_decide_unpack _). by vm_compute. Defined.

Lemma operations_keep_primary_key_witness :
  NoDup (List.map Models.id
           (rows (Crud.delete_task (example_task "t1" "u1") example_session))).
Proof.
  destruct (operations_keep_primary_key example_session
              example_session_primary_key (uuid4 example_defaults) 0 0
              (lit "u1") (lit "t1")
              {| Models.tc_title := lit "x"; Models.tc_description := None |}
              (example_task "t1" "u1") true) as (_ & _ & _ & H & _).
  exact H.
Defined.

Lemma create_then_get_witness :
  fst (Crud.get_task (lit "u2") (uuid4 example_defaults)
         (snd (Crud.create_task (uuid4 example_defaults) 0 0 (lit "u1")
                 {| Models.tc_title := lit "x"; Models.tc_description := None |}
                 example_session)))
  = None.
Proof.
  destruct (create_then_get example_session (uuid4 example_defaults) 0 0
              (lit "u1")
              {| Models.tc_title := lit "x"; Models.tc_description := None |}
              (lit "u2") example_uuid4_fresh) as (_ & _ & _ & _ & _ & _ & H & _).
  - by vm_compute.
  - exact H.
Defined.

Lemma delete_then_get_witness :
  fst (Crud.get_task (lit "u1") (lit "t1")
         (Crud.delete_task (example_task "t1" "u1") example_session))
  = None.
Proof.
  destruct (delete_then_get example_session example_session_primary_key
              (example_task "t1" "u1") (lit "u1")) as (H & _).
  - by left.
  - exact H.
Defined.

Lemma update_then_get_witness :
  Models.completed
    (fst (Crud.update_task 5 (example_task "t1" "u1")
            {| Models.tc_title := lit "x"; Models.tc_description := None |}
            example_session))
  = false.
Proof.
  destruct (update_then_get example_session 5 (example_task "t1" "u1")
              {| Models.tc_title := lit "x"; Models.tc_description := None |})
    as (_ & _ & H & _).
  - by left.
  - exact H.
Defined.

Lemma toggle_then_get_witness :
  Models.completed
    (fst (Crud.toggle_completion 5 (example_task "t1" "u1") true example_session))
  = true.
Proof.
  destruct (toggle_then_get example_session 5 (example_task "t1" "u1") true)
    as (H & _).
  - by left.
  - exact H.
Defined.

(** ** Client: the pages *)

Lemma member_not_null k v :
  v <> JNull -> member k v = Resolved (property k v).
Proof. by destruct v. Qed.

Lemma truthy_not_null v : truthy v = true -> v <> JNull.
Proof. by destruct v. Qed.

Section GuardFacts.

Variable JSON_parse : text -> option json.

Let getUser := AuthJs.getUser JSON_parse.
Let isAuthenticated := AuthJs.isAuthenticated JSON_parse.
Let require_auth := Page.require_auth JSON_parse.

(** X22. The task pages open for a signed-in user only. When
    [isAuthenticated()] holds, the first effect of a task page stores the
    user [getUser()] returns, which is truthy, so that reading [user.id]
    in a handler does not throw, and the landing page moves on to
    [/todos]; when it does not hold, the task page only redirects to
    [/login], its [user] stays [null], and the landing page stays. After
    [logout()] every task page redirects to [/login]. *)
Theorem pages_open_for_signed_in_users_only w :
  (if isAuthenticated w
   then require_auth w = [setUser (getUser w)]
        /\ truthy (getUser w) = true
        /\ member (lit "id") (getUser w)
           = Resolved (property (lit "id") (getUser w))
        /\ HomePage.useEffect JSON_parse w = [router_push (lit "/todos")]
   else require_auth w = [router_push (lit "/login")]
        /\ HomePage.useEffect JSON_parse w = [])
  /\ require_auth (AuthJs.logout w) = [router_push (lit "/login")]
  /\ HomePage.useEffect JSON_parse (AuthJs.logout w) = [].
Proof.
  assert (isAuthenticated (AuthJs.logout w) = false) as Hout.
  { unfold isAuthenticated, AuthJs.isAuthenticated.
    by rewrite (proj1 (logout_cleared JSON_parse w)). }
  split; [|split].
  - unfold require_auth, Page.require_auth, HomePage.useEffect.
    fold isAuthenticated getUser.
    destruct (isAuthenticated w) eqn:Ha; [|done].
    apply isAuthenticated_iff in Ha as [_ Ht]. fold getUser in Ht.
    repeat split; [done|].
    by apply member_not_null, truthy_not_null.
  - unfold require_auth, Page.require_auth. fold isAuthenticated.
    by rewrite Hout.
  - unfold HomePage.useEffect. fold isAuthenticated. by rewrite Hout.
Qed.

End GuardFacts.



Section PageFacts.

Variable NEXT_PUBLIC_API_URL : option text.
Variable fetch : Request -> promise Response.
Variable URLSearchParams_toString : list (text * text) -> text.
Variable native_message : js_error -> text.

Let apiRequest := Api.apiRequest NEXT_PUBLIC_API_URL fetch.
Let tasksAPI := Api.tasksAPI NEXT_PUBLIC_API_URL fetch URLSearchParams_toString.
Let tasksAPI_for :=
  Page.tasksAPI_for NEXT_PUBLIC_API_URL fetch URLSearchParams_toString.
Let message := Page.message native_message.

(** The form submitted on [NewTaskPage]. *)
Let submit user :=
  Page.submit native_message
    (NewTaskPage.handleSubmit NEXT_PUBLIC_API_URL fetch URLSearchParams_toString
       user).




















End PageFacts.

(** ** Client: the filters of the list *)

Lemma reachable_fields filters :
  reachable filters ->
  f_order filters = Some (lit "desc")
  /\ (exists sort,
        f_sort filters = Some sort /\ sort ∈ TodoFilters.sort_options)
  /\ (exists completed,
        f_completed filters = Some completed
        /\ completed ∈ TodoFilters.completed_buttons)
  /\ is_Some (f_search filters).
Proof.
  assert (lit "created_at" ∈ TodoFilters.sort_options) as Hsort
    by apply list_elem_of_here.
  assert (lit "all" ∈ TodoFilters.completed_buttons) as Hall
    by apply list_elem_of_here.
  induction 1 as [|value filters _ (Ho & Hs & Hc & Hq)
                  |value filters Hv _ (Ho & Hs & Hc & Hq)
                  |value filters Hv _ (Ho & Hs & Hc & Hq)
                  |filters _ _]; cbn; eauto 10.
Qed.

(** X27. The list is always requested newest first. Whatever the user
    does with the controls of [TodoFilters], starting from the initial
    filters of [TodosPage], [order] stays ['desc'] and [sort] is one of the
    three options, so every request of the list ends with the parameters
    [sort] and [order=desc]: no control changes the order. *)
Theorem reachable_filters_request filters :
  reachable filters ->
  f_order filters = Some (lit "desc")
  /\ exists front sort,
       Api.list_params filters
       = front ++ [(lit "sort", sort); (lit "order", lit "desc")]
       /\ sort ∈ TodoFilters.sort_options
       /\ Forall (fun p => p.1 = lit "completed" \/ p.1 = lit "search") front.
Proof.
  intros Hr.
  destruct (reachable_fields filters Hr)
    as (Ho & (sort & Hs & Hin) & (completed & Hc & _) & (search & Hq)).
  split; [done|].
  assert (truthy_text (Some sort) = true) as Ht.
  { unfold TodoFilters.sort_options in Hin.
    repeat (apply elem_of_cons in Hin as [-> | Hin]; [done|]).
    by apply elem_of_nil in Hin. }
  unfold Api.list_params. rewrite Ho, Hs, Hc, Hq, Ht.
  change (truthy_text (Some (lit "desc"))) with true.
  cbn [default].
  exists ((if bool_decide (completed = lit "all") then []
           else [(lit "completed", completed)])
          ++ (if truthy_text (Some search) then [(lit "search", search)]
              else [])), sort.
  split; [by rewrite <- app_assoc|]. split; [done|].
  apply Forall_app. split.
  - case_bool_decide; [constructor|].
    constructor; [by left | constructor].
  - destruct (truthy_text (Some search)); [|constructor].
    constructor; [by right | constructor].
Qed.

Lemma reachable_filters_request_witness :
  f_order (TodoFilters.handleCompletedFilter (lit "true")
             (TodoFilters.handleSearchChange (lit "milk")
                TodosPage.initial_filters))
  = Some (lit "desc").
Proof.
  refine (proj1 (reachable_filters_request _ _)).
  apply reachable_completed.
  - apply (bool_decide_unpack _). by vm_compute.
  - apply reachable_search, reachable_initial.
Defined.

(** ** Client: from [login] to the request *)

Section SignedIn.

Variable JSON_parse : text -> option json.
Variable NEXT_PUBLIC_API_URL : option text.
Variable URLSearchParams_toString : list (text * text) -> text.

(** The state [login] leaves in a browser. *)
Lemma login_session random now_iat now_exp email password w :
  latin1 email = true ->
  window w = true ->
  JSON_parse (JSON_stringify (AuthJs.mockUser random email))
  = Some (AuthJs.mockUser random email) ->
  let session := snd (AuthJs.login random now_iat now_exp email password w) in
  let token :=
    b64_encode (JSON_stringify (AuthJs.mockClaims random email now_iat now_exp)) in
  AuthJs.getUser JSON_parse session = AuthJs.mockUser random email
  /\ AuthJs.getToken session = Some token
  /\ token <> []
  /\ AuthJs.isAuthenticated JSON_parse session = true.
Proof.
  intros He Hw Hp session token.
  set (claims := AuthJs.mockClaims random email now_iat now_exp) in *.
  assert (latin1 (JSON_stringify claims) = true) as Hl
    by (apply latin1_Latin1, mockClaims_Latin1, latin1_Latin1, He).
  assert (session = AuthJs.setAuth (AuthJs.mockUser random email) token w)
    as Hs.
  { unfold session, AuthJs.login, btoa. fold claims. by rewrite Hl. }
  assert (token <> []) as Hne
    by apply b64_encode_nonempty, JSON_stringify_nonempty.
  assert (AuthJs.getUser JSON_parse session = AuthJs.mockUser random email)
    as Hu by (rewrite Hs; by apply getUser_setAuth).
  assert (AuthJs.getToken session = Some token) as Ht
    by (rewrite Hs; by apply getToken_setAuth).
  repeat split; try done.
  unfold AuthJs.isAuthenticated. rewrite Hu, Ht.
  by destruct token.
Qed.

(** X28. From [login] to the request. After a [login] that resolves in a
    browser, a task page stores the user [login] returned, and creating a
    task sends one request, which is fully determined: a [POST] to
    [/api/<id of that user>/tasks] under the API URL, with the serialised
    title and description as body and the headers [Content-Type:
    application/json] and [Authorization: Bearer <the token login
    stored>]; the outcome of the handler depends on the network through
    the answer to this request only. The user in the path is the subject
    of the token. *)
Theorem signed_in_create_request random now_iat now_exp email password w data
    fetch1 fetch2 :
  latin1 email = true ->
  window w = true ->
  JSON_parse (JSON_stringify (AuthJs.mockUser random email))
  = Some (AuthJs.mockUser random email) ->
  let session := snd (AuthJs.login random now_iat now_exp email password w) in
  let token :=
    b64_encode (JSON_stringify (AuthJs.mockClaims random email now_iat now_exp)) in
  let request :=
    {| url := Api.API_URL NEXT_PUBLIC_API_URL
              ++ lit "/api/" ++ AuthJs.mockUser_id random ++ lit "/tasks";
       init := {| method := Some (lit "POST");
                  body := Some (JSON_stringify (task_data data));
                  headers :=
                    <[lit "Authorization" := lit "Bearer " ++ token]>
                      {[lit "Content-Type" := lit "application/json"]} |} |} in
  Page.require_auth JSON_parse session = [setUser (AuthJs.mockUser random email)]
  /\ (fetch1 request = fetch2 request ->
      NewTaskPage.handleSubmit NEXT_PUBLIC_API_URL fetch1
        URLSearchParams_toString (AuthJs.mockUser random email) data session
      = NewTaskPage.handleSubmit NEXT_PUBLIC_API_URL fetch2
          URLSearchParams_toString (AuthJs.mockUser random email) data session)
  /\ property (lit "sub") (AuthJs.mockClaims random email now_iat now_exp)
     = Some (JStr (AuthJs.mockUser_id random)).
Proof.
  intros He Hw Hp session token request.
  destruct (login_session random now_iat now_exp email password w He Hw Hp)
    as (Hu & Ht & Hne & Ha).
  fold session in Hu, Ht, Ha. fold token in Ht, Hne.
  split; [|split].
  - unfold Page.require_auth. by rewrite Ha, Hu.
  - assert (forall fetch,
              NewTaskPage.handleSubmit NEXT_PUBLIC_API_URL fetch
                URLSearchParams_toString (AuthJs.mockUser random email) data
                session
              = match
                  match fetch request with
                  | Rejected e => (Rejected e, log_error e session)
                  | Resolved response =>
                      match Api.on_response response session with
                      | (Rejected e, w') => (Rejected e, log_error e w')
                      | (Resolved v, w') => (Resolved v, w')
                      end
                  end
                with
                | (Resolved _, w') =>
                    (Resolved tt,
                     [setLoading true; router_push (lit "/todos");
                      setLoading false], w')
                | (Rejected e, w') =>
                    (Rejected e, [setLoading true; setLoading false],
                     log_error e w')
                end) as Hh.
    { intros fetch.
      assert (Api.build_request NEXT_PUBLIC_API_URL
                (lit "/api/" ++ AuthJs.mockUser_id random ++ lit "/tasks")
                (Api.with_method "POST" (Some (JSON_stringify (task_data data))))
                session = request) as Hreq.
      { unfold Api.build_request, request, Api.build_headers. rewrite Ht.
        destruct token as [|c t] eqn:Etoken; [done|].
        cbn [method body headers Api.with_method].
        by rewrite (left_id_L ∅ (∪)). }
      unfold NewTaskPage.handleSubmit, Page.tasksAPI_for, Api.tasksAPI,
        Api.apiRequest.
      change (member (lit "id") (AuthJs.mockUser random email))
        with (Resolved (property (lit "id") (AuthJs.mockUser random email))).
      assert (property (lit "id") (AuthJs.mockUser random email)
              = Some (JStr (AuthJs.mockUser_id random))) as ->.
      { unfold AuthJs.mockUser, property, assoc.
        by rewrite bool_decide_eq_true_2. }
      change (template (Some (JStr (AuthJs.mockUser_id random))))
        with (AuthJs.mockUser_id random).
      change (Api.endpoint URLSearchParams_toString
                (Api.create (AuthJs.mockUser_id random) (task_data data)))
        with (lit "/api/" ++ AuthJs.mockUser_id random ++ lit "/tasks").
      change (Api.options_of
                (Api.create (AuthJs.mockUser_id random) (task_data data)))
        with (Api.with_method "POST" (Some (JSON_stringify (task_data data)))).
      rewrite Hreq.
      destruct (fetch request) as [response|e]; [|done].
      by destruct (Api.on_response response session) as [[v|e] w']. }
    intros Hf. by rewrite (Hh fetch1), (Hh fetch2), Hf.
  - unfold AuthJs.mockClaims, property, assoc.
    by rewrite bool_decide_eq_true_2.
Qed.

End SignedIn.





Lemma signed_in_create_request_witness :
  Page.require_auth example_parse
    (snd (AuthJs.login example_random 1700000000123 1700000000123
            (lit "ada@example.com") (lit "pw") example_browser))
  = [setUser (AuthJs.mockUser example_random (lit "ada@example.com"))].
Proof.
  refine (proj1 (signed_in_create_request example_parse None example_params
                   example_random 1700000000123 1700000000123
                   (lit "ada@example.com") (lit "pw") example_browser
                   {| TodoForm.s_title := lit "Buy milk";
                      TodoForm.s_description := lit "" |}
                   (example_fetch example_forbidden)
                   (example_fetch example_forbidden)
                   eq_refl eq_refl eq_refl)).
Defined.
